(** * L-Shape Stone Calculator: the volume, validation and outline code

    A shallow embedding of the calculator script (the chamfer / bullnose
    version and its chamfer-only predecessor [app.js]).

    Numbers.  A JavaScript number is modelled as a real number: the
    arithmetic of the script is written operation by operation, in the
    order of the source, over [R]; rounding of binary64, infinities and
    the sign of zero are outside the model.  [NaN] only arises from the
    two parsers and is modelled by [None].

    The document.  The script reads seven input fields and two radio
    buttons and writes two result texts, a validation message and the
    [input-error] marks.  The fields are the record [Form]; what a
    function writes is what the embedded function returns. *)

From Stdlib Require Import Reals Lra Lia ZArith List String Ascii Bool.
From Stdlib Require Import ListSet Machin.
Import ListNotations.

Open Scope R_scope.

(** ** Built-ins of the language *)

Module JS.

(** Comparison operators on numbers, as booleans. *)
Definition ltb (x y : R) : bool := if Rlt_dec x y then true else false.
Definition leb (x y : R) : bool := if Rle_dec x y then true else false.
Definition gtb (x y : R) : bool := ltb y x.
Definition geb (x y : R) : bool := leb y x.
Definition eqb (x y : R) : bool := if Req_dec_T x y then true else false.

(** [p || d] for a number [p] that may be [NaN]: zero and [NaN] are
    falsy. *)
Definition or_else (p : option R) (d : R) : R :=
  match p with
  | Some x => if eqb x 0 then d else x
  | None => d
  end.

(** The same operator on the integer result of [parseInt]. *)
Definition or_elseZ (p : option Z) (d : Z) : Z :=
  match p with
  | Some 0%Z => d
  | Some n => n
  | None => d
  end.

(** [Math.max(a, b)] and [Math.round(x)] (the integer nearest to [x],
    ties towards plus infinity). *)
Definition Math_max (a b : R) : R := Rmax a b.
Definition Math_round (x : R) : Z := Zfloor (x + 1 / 2).

(** *** [parseInt(s, 10)] *)

(** White space stripped from the start of the string (the code
    points below 128 of the language's white space and line
    terminators). *)
Definition is_space (c : ascii) : bool :=
  let n := nat_of_ascii c in
  ((9 <=? n) && (n <=? 13) || (n =? 32))%nat.

Definition digit_of (c : ascii) : option Z :=
  let n := nat_of_ascii c in
  if ((48 <=? n) && (n <=? 57))%nat then Some (Z.of_nat (n - 48)) else None.

Fixpoint trim_start (s : string) : string :=
  match s with
  | String c s' => if is_space c then trim_start s' else s
  | EmptyString => s
  end.

(** The longest prefix of decimal digits, read from the left with the
    value so far in [acc]; [None] until a first digit is seen. *)
Fixpoint digits (s : string) (acc : option Z) : option Z :=
  match s with
  | String c s' =>
      match digit_of c with
      | Some d =>
          digits s' (Some (10 * match acc with Some a => a | None => 0 end + d)%Z)
      | None => acc
      end
  | EmptyString => acc
  end.

Definition parseInt (s : string) : option Z :=
  match trim_start s with
  | String "-" s' => option_map Z.opp (digits s' None)
  | String "+" s' => digits s' None
  | s' => digits s' None
  end.

End JS.

(** ** The input fields *)

Inductive Input : Set :=
  | el_length | el_width | el_flatThickness | el_lipWidth | el_lipHeight
  | el_chamfer | el_quantity.

Definition Input_eq_dec (a b : Input) : {a = b} + {a <> b}.
Proof. decide equality. Defined.

Inductive EdgeType : Set := chamfer | bullnose.

(** The six dimension fields are held as what [parseFloat] makes of their
    text ([None] for [NaN]); the quantity field is held as its text. *)
Record Form : Type := mkForm {
  length_value : option R;
  width_value : option R;
  flatThickness_value : option R;
  lipWidth_value : option R;
  lipHeight_value : option R;
  chamfer_value : option R;
  quantity_value : string;
  edgeBullnose_checked : bool
}.

Record Values : Type := mkValues {
  L : R; W : R; T : R; Lw : R; Lh : R; Tr : R;
  qty : Z;
  edge : EdgeType
}.

Definition getEdgeType (f : Form) : EdgeType :=
  if edgeBullnose_checked f then bullnose else chamfer.

Definition getValues (f : Form) : Values :=
  {| L := JS.or_else (length_value f) 0;
     W := JS.or_else (width_value f) 0;
     T := JS.or_else (flatThickness_value f) 0;
     Lw := JS.or_else (lipWidth_value f) 0;
     Lh := JS.or_else (lipHeight_value f) 0;
     Tr := JS.or_else (chamfer_value f) 0;
     qty := JS.or_elseZ (JS.parseInt (quantity_value f)) 1;
     edge := getEdgeType f |}.

(** ** Result texts *)

(** The text of a result: the dash, or the number of cubic metres in
    one of the two notations ([toExponential(4)] or [toFixed(6)],
    followed by the unit).  The digits are not expanded. *)
Inductive Text : Type :=
  | Dash
  | Exponential4 (m3 : R)
  | Fixed6 (m3 : R).

Definition formatVolume (mm3 : R) : Text :=
  let m3 := mm3 / 1e9 in
  if JS.eqb m3 0 then Dash
  else if JS.ltb m3 0.0001 then Exponential4 m3
  else Fixed6 m3.

(** ** Input validation *)

(** The two locals of [validate]: the messages in the order they were
    pushed, and the set of implicated fields in insertion order. *)
Record Report : Type := mkReport {
  errors : list string;
  errorInputs : set Input
}.

(** One guarded statement
    [if (c) { errors.push(msg); errorInputs.add(el); }]. *)
Definition check (c : bool) (msg : string) (el : Input) (r : Report) : Report :=
  if c then
    {| errors := errors r ++ [msg];
       errorInputs := set_add Input_eq_dec el (errorInputs r) |}
  else r.

Definition msg_L : string := "Length (L) must be greater than 0.".
Definition msg_W : string := "Total Width (W) must be greater than 0.".
Definition msg_T : string := "Flat Thickness (T) must be greater than 0.".
Definition msg_Lw : string := "Lip Width (Lw) must be greater than 0.".
Definition msg_Lh : string := "Lip Drop Height (Lh) must be greater than 0.".
Definition msg_Tr : string := "Tᵣ cannot be negative.".
Definition msg_qty : string := "Quantity must be at least 1.".
Definition msg_Tr_T : string := "Tᵣ must be less than Flat Thickness (T).".
Definition msg_Lw_W : string := "Lip Width (Lw) must be less than Total Width (W).".

(** The nine conditions, as the source writes them. *)
Definition c_L (v : Values) : bool := JS.leb (L v) 0.
Definition c_W (v : Values) : bool := JS.leb (W v) 0.
Definition c_T (v : Values) : bool := JS.leb (T v) 0.
Definition c_Lw (v : Values) : bool := JS.leb (Lw v) 0.
Definition c_Lh (v : Values) : bool := JS.leb (Lh v) 0.
Definition c_Tr (v : Values) : bool := JS.ltb (Tr v) 0.
Definition c_qty (v : Values) : bool := (qty v <? 1)%Z.
Definition c_Tr_T (v : Values) : bool :=
  JS.gtb (Tr v) 0 && JS.gtb (T v) 0 && JS.geb (Tr v) (T v).
Definition c_Lw_W (v : Values) : bool :=
  JS.gtb (Lw v) 0 && JS.gtb (W v) 0 && JS.geb (Lw v) (W v).

(** The state of the two locals after the nine statements have run. *)
Definition collect (v : Values) : Report :=
  let r := {| errors := []; errorInputs := empty_set Input |} in
  let r := check (c_L v) msg_L el_length r in
  let r := check (c_W v) msg_W el_width r in
  let r := check (c_T v) msg_T el_flatThickness r in
  let r := check (c_Lw v) msg_Lw el_lipWidth r in
  let r := check (c_Lh v) msg_Lh el_lipHeight r in
  let r := check (c_Tr v) msg_Tr el_chamfer r in
  let r := check (c_qty v) msg_qty el_quantity r in
  let r := check (c_Tr_T v) msg_Tr_T el_chamfer r in
  let r := check (c_Lw_W v) msg_Lw_W el_lipWidth r in
  r.

(** [errors.join(sep)]. *)
Fixpoint join (sep : string) (l : list string) : string :=
  match l with
  | [] => ""
  | [x] => x
  | x :: l' => x ++ sep ++ join sep l'
  end.

(** What [validate] leaves in the document. *)
Record Marks : Type := mkMarks {
  validationMsg_innerHTML : string;
  validationMsg_visible : bool;
  input_error : set Input
}.

Definition validate (f : Form) : bool * Marks :=
  let v := getValues f in
  let r := collect v in
  if (0 <? List.length (errors r))%nat then
    (false,
     {| validationMsg_innerHTML := "⚠ " ++ join "<br>⚠ " (errors r);
        validationMsg_visible := true;
        input_error := errorInputs r |})
  else
    (true,
     {| validationMsg_innerHTML := "";
        validationMsg_visible := false;
        input_error := errorInputs r |}).

(** ** Volume calculation *)

(** The locals of [calculate], each as a function of the values read. *)
Definition baseVol (v : Values) : R :=
  L v * (W v * T v + Lw v * Lh v).

Definition edgeVol (v : Values) : R :=
  match edge v with
  | chamfer => 0.5 * Tr v * Tr v * L v
  | bullnose => Tr v * Tr v * (1 - PI / 4) * L v
  end.

Definition volOne (v : Values) : R := JS.Math_max 0 (baseVol v - edgeVol v).
Definition volTotal (v : Values) : R := volOne v * IZR (qty v).

(** The two result texts [calculate] writes. *)
Record Results : Type := mkResults {
  volumeOne : Text;
  volumeTotal : Text
}.

Definition calculate (f : Form) : Results :=
  if negb (fst (validate f)) then
    {| volumeOne := Dash; volumeTotal := Dash |}
  else
    let v := getValues f in
    {| volumeOne := formatVolume (volOne v);
       volumeTotal := formatVolume (volTotal v) |}.

(** ** The chamfer-only predecessor ([app.js]) *)

Module App.

Record Values : Type := mkValues {
  L : R; W : R; T : R; Lw : R; Lh : R; C : R;
  qty : Z
}.

Definition getValues (f : Form) : Values :=
  {| L := JS.or_else (length_value f) 0;
     W := JS.or_else (width_value f) 0;
     T := JS.or_else (flatThickness_value f) 0;
     Lw := JS.or_else (lipWidth_value f) 0;
     Lh := JS.or_else (lipHeight_value f) 0;
     C := JS.or_else (chamfer_value f) 0;
     qty := JS.or_elseZ (JS.parseInt (quantity_value f)) 1 |}.

Definition baseVol (v : Values) : R := L v * (W v * T v + Lw v * Lh v).
Definition chamferVol (v : Values) : R := 0.5 * C v * C v * L v.
Definition volOne (v : Values) : R := JS.Math_max 0 (baseVol v - chamferVol v).
Definition volTotal (v : Values) : R := volOne v * IZR (qty v).

(** This version computes without validating first. *)
Definition calculate (f : Form) : Results :=
  let v := getValues f in
  {| volumeOne := formatVolume (volOne v);
     volumeTotal := formatVolume (volTotal v) |}.

End App.

(** ** The outline of the cross-section *)

(** The commands of an SVG path, as far as the script writes them. *)
Inductive PathCmd : Type :=
  | cmd_M (x y : R)
  | cmd_L (x y : R)
  | cmd_A (rx ry : R) (rotation : R) (large_arc sweep : bool) (x y : R)
  | cmd_Z.

(** The points a path goes through: the end point of every command
    that has one. *)
Fixpoint vertices (p : list PathCmd) : list (R * R) :=
  match p with
  | [] => []
  | cmd_M x y :: p' => (x, y) :: vertices p'
  | cmd_L x y :: p' => (x, y) :: vertices p'
  | cmd_A _ _ _ _ _ x y :: p' => (x, y) :: vertices p'
  | cmd_Z :: p' => vertices p'
  end.

Module CrossSection.

Definition svgW : R := 700.
Definition svgH : R := 500.
Definition pad : R := 80.
Definition drawW : R := svgW - pad * 2.
Definition drawH : R := svgH - pad * 2.

(** The locals of [drawCrossSection] up to the path. *)
Definition totalH (v : Values) : R := T v + Lh v.
Definition scale (v : Values) : R :=
  Rmin (drawW / W v) (drawH / totalH v) * 0.75.
Definition sW (v : Values) : R := W v * scale v.
Definition sT (v : Values) : R := T v * scale v.
Definition sLw (v : Values) : R := Lw v * scale v.
Definition sLh (v : Values) : R := Lh v * scale v.
Definition sTr (v : Values) : R := Tr v * scale v.
Definition totalShapeH (v : Values) : R := sT v + sLh v.
Definition ox (v : Values) : R := (svgW - sW v) / 2.
Definition oy (v : Values) : R := (svgH - totalShapeH v) / 2.
Definition lipLeftX (v : Values) : R := ox v + sW v - sLw v.

Definition path (v : Values) : list PathCmd :=
  if JS.gtb (sTr v) 0.5 then
    match edge v with
    | bullnose =>
        [ cmd_M (ox v) (oy v);
          cmd_L (ox v + sW v - sTr v) (oy v);
          cmd_A (sTr v) (sTr v) 0 false true (ox v + sW v) (oy v + sTr v);
          cmd_L (ox v + sW v) (oy v + sT v + sLh v);
          cmd_L (lipLeftX v) (oy v + sT v + sLh v);
          cmd_L (lipLeftX v) (oy v + sT v);
          cmd_L (ox v) (oy v + sT v);
          cmd_Z ]
    | chamfer =>
        [ cmd_M (ox v) (oy v);
          cmd_L (ox v + sW v - sTr v) (oy v);
          cmd_L (ox v + sW v) (oy v + sTr v);
          cmd_L (ox v + sW v) (oy v + sT v + sLh v);
          cmd_L (lipLeftX v) (oy v + sT v + sLh v);
          cmd_L (lipLeftX v) (oy v + sT v);
          cmd_L (ox v) (oy v + sT v);
          cmd_Z ]
    end
  else
    [ cmd_M (ox v) (oy v);
      cmd_L (ox v + sW v) (oy v);
      cmd_L (ox v + sW v) (oy v + sT v + sLh v);
      cmd_L (lipLeftX v) (oy v + sT v + sLh v);
      cmd_L (lipLeftX v) (oy v + sT v);
      cmd_L (ox v) (oy v + sT v);
      cmd_Z ].

(** The path [drawCrossSection] sets on the shape, or [None] when it
    returns at its guard. *)
Definition drawCrossSection (f : Form) : option (list PathCmd) :=
  let v := getValues f in
  if JS.leb (W v) 0 || JS.leb (T v) 0 then None
  else Some (path v).

End CrossSection.

Module Isometric.

Definition segments : nat := 12.

(** The point pushed at step [i] of the loop over the quarter circle. *)
Definition arcPoint (v : Values) (i : nat) : R * R :=
  let angle := (PI / 2) * (INR i / INR segments) in
  let px := W v - Tr v + Tr v * sin angle in
  let py := T v - Tr v + Tr v * cos angle in
  (px, py).

(** The local [csTop] of [drawIsometric]. *)
Definition csTop (v : Values) : list (R * R) :=
  if JS.gtb (Tr v) 0 then
    match edge v with
    | bullnose =>
        [(0, T v)]
          ++ map (arcPoint v) (seq 0 (S segments))
          ++ [ (W v, - Lh v);
               (W v - Lw v, - Lh v);
               (W v - Lw v, 0);
               (0, 0) ]
    | chamfer =>
        [ (0, T v);
          (W v - Tr v, T v);
          (W v, T v - Tr v);
          (W v, - Lh v);
          (W v - Lw v, - Lh v);
          (W v - Lw v, 0);
          (0, 0) ]
    end
  else
    [ (0, T v);
      (W v, T v);
      (W v, - Lh v);
      (W v - Lw v, - Lh v);
      (W v - Lw v, 0);
      (0, 0) ].

(** The outline [drawIsometric] extrudes, or [None] when it returns at
    its guard. *)
Definition drawIsometric (f : Form) : option (list (R * R)) :=
  let v := getValues f in
  if JS.leb (W v) 0 || JS.leb (T v) 0 || JS.leb (L v) 0 then None
  else Some (csTop v).

End Isometric.

(** ** Auto-fit radius *)

(** The local [Tr] of the click handler. *)
Definition autoFit_Tr (Lw T : R) : R := Lw + T - sqrt (2 * Lw * T).

(** The handler of the auto-fit button: the form after the click.  The
    field receives the text of an integer, which [parseFloat] reads back
    as that integer. *)
Definition autoFit (f : Form) : Form :=
  let Lw := JS.or_else (lipWidth_value f) 0 in
  let T := JS.or_else (flatThickness_value f) 0 in
  if JS.gtb Lw 0 && JS.gtb T 0 then
    let Tr := autoFit_Tr Lw T in
    {| length_value := length_value f;
       width_value := width_value f;
       flatThickness_value := flatThickness_value f;
       lipWidth_value := lipWidth_value f;
       lipHeight_value := lipHeight_value f;
       chamfer_value := Some (IZR (JS.Math_round Tr));
       quantity_value := quantity_value f;
       edgeBullnose_checked := edgeBullnose_checked f |}
  else f.

(** ** The invariant set and the forms of the documentation *)

(** The invariant set of the parameter set, as a proposition. *)
Definition Invariants (v : Values) : Prop :=
  0 < L v /\ 0 < W v /\ 0 < T v /\ 0 < Lw v /\ 0 < Lh v /\
  0 <= Tr v /\ (0 < Tr v -> Tr v < T v) /\ Lw v < W v /\ (1 <= qty v)%Z.

(** The contribution of one guarded statement to the list. *)
Definition pick (c : bool) (msg : string) : list string :=
  if c then [msg] else [].

Module Spec.

(** The violations of the invariant set, each invariant looked at on
    its own: all of L, W, T, Lw, Lh strictly positive; the edge depth
    non-negative and, if positive, strictly less than T; Lw strictly
    less than W; the quantity at least 1.  The messages are those of
    the validator, in the order of its statements. *)
Definition violations (v : Values) : list string :=
  pick (negb (JS.gtb (L v) 0)) msg_L ++
  pick (negb (JS.gtb (W v) 0)) msg_W ++
  pick (negb (JS.gtb (T v) 0)) msg_T ++
  pick (negb (JS.gtb (Lw v) 0)) msg_Lw ++
  pick (negb (JS.gtb (Lh v) 0)) msg_Lh ++
  pick (negb (JS.geb (Tr v) 0)) msg_Tr ++
  pick (negb (1 <=? qty v)%Z) msg_qty ++
  pick (JS.gtb (Tr v) 0 && negb (JS.ltb (Tr v) (T v))) msg_Tr_T ++
  pick (negb (JS.ltb (Lw v) (W v))) msg_Lw_W.

End Spec.

(** The form after the quantity field has been given the text [s]. *)
Definition with_quantity (f : Form) (s : string) : Form :=
  {| length_value := length_value f;
     width_value := width_value f;
     flatThickness_value := flatThickness_value f;
     lipWidth_value := lipWidth_value f;
     lipHeight_value := lipHeight_value f;
     chamfer_value := chamfer_value f;
     quantity_value := s;
     edgeBullnose_checked := edgeBullnose_checked f |}.

(** The worked example of the documentation, with either edge type,
    and variations of it. *)
Definition example_chamfer : Form :=
  mkForm (Some 1000) (Some 700) (Some 100) (Some 150) (Some 200) (Some 50)
    "1" false.

Definition example_bullnose : Form :=
  mkForm (Some 1000) (Some 700) (Some 100) (Some 150) (Some 200) (Some 50)
    "1" true.

Definition example_sharp (b : bool) : Form :=
  mkForm (Some 1000) (Some 700) (Some 100) (Some 150) (Some 200) (Some 0)
    "1" b.

Definition example_thin : Form :=
  mkForm (Some 1000) (Some 1) (Some 100) (Some 0.5) (Some 1) (Some 99)
    "1" false.

Definition example_equal_widths : Form :=
  mkForm (Some 1000) (Some 700) (Some 100) (Some 700) (Some 200) (Some 50)
    "1" false.

Definition example_negative_width : Form :=
  mkForm (Some 1000) (Some (-1)) (Some 100) (Some 5) (Some 200) (Some 50)
    "1" false.

Definition example_square_lip : Form :=
  mkForm (Some 1000) (Some 700) (Some 100) (Some 100) (Some 200) (Some 0)
    "1" true.

(** ** Dimension lines of the cross-section *)

Inductive Side : Set := side_left | side_right | side_top | side_bottom.

(** What [dimLine] appends for one dimension: the two extension lines,
    the dimension line, the two arrow heads, and the position, anchor
    and content of the text (the literal part and the number that
    follows it). *)
Record DimLine : Type := mkDimLine {
  extension1 : (R * R) * (R * R);
  extension2 : (R * R) * (R * R);
  dim_line : (R * R) * (R * R);
  arrow1 : list (R * R);
  arrow2 : list (R * R);
  text_at : R * R;
  text_anchor : string;
  label : string * R
}.

Module Dimensions.

Definition arrowSize : R := 6.

Definition dimLine (x1 y1 x2 y2 : R) (label : string * R) (side : Side)
  : DimLine :=
  let off :=
    match side with
    | side_left => -35
    | side_right => 35
    | side_top => -35
    | side_bottom => 35
    end in
  let isHoriz := JS.ltb (Rabs (y1 - y2)) 1 in
  let lx1 := if isHoriz then x1 else x1 + off in
  let ly1 := if isHoriz then y1 + off else y1 in
  let lx2 := if isHoriz then x2 else x2 + off in
  let ly2 := if isHoriz then y2 + off else y2 in
  let tx := (lx1 + lx2) / 2 in
  let ty := (ly1 + ly2) / 2 in
  let textOffset := if isHoriz then -10 else -12 in
  {| extension1 := ((x1, y1), (lx1, ly1));
     extension2 := ((x2, y2), (lx2, ly2));
     dim_line := ((lx1, ly1), (lx2, ly2));
     arrow1 :=
       if isHoriz then
         [ (lx1, ly1); (lx1 + arrowSize, ly1 - arrowSize / 2);
           (lx1 + arrowSize, ly1 + arrowSize / 2) ]
       else
         [ (lx1, ly1); (lx1 - arrowSize / 2, ly1 + arrowSize);
           (lx1 + arrowSize / 2, ly1 + arrowSize) ];
     arrow2 :=
       if isHoriz then
         [ (lx2, ly2); (lx2 - arrowSize, ly2 - arrowSize / 2);
           (lx2 - arrowSize, ly2 + arrowSize / 2) ]
       else
         [ (lx2, ly2); (lx2 - arrowSize / 2, ly2 - arrowSize);
           (lx2 + arrowSize / 2, ly2 - arrowSize) ];
     text_at :=
       (tx + (if isHoriz then 0 else textOffset),
        ty + (if isHoriz then textOffset else 5));
     text_anchor := if isHoriz then "middle"%string else "end"%string;
     label := label |}.

(** The four calls of [drawCrossSection], in order: W, T, Lw, Lh. *)
Definition dimensions (v : Values) : list DimLine :=
  let ox := CrossSection.ox v in
  let oy := CrossSection.oy v in
  let sW := CrossSection.sW v in
  let sT := CrossSection.sT v in
  let sLh := CrossSection.sLh v in
  let lipLeftX := CrossSection.lipLeftX v in
  [ dimLine ox oy (ox + sW) oy ("W = "%string, W v) side_top;
    dimLine ox oy ox (oy + sT) ("T = "%string, T v) side_left;
    dimLine lipLeftX (oy + sT + sLh) (ox + sW) (oy + sT + sLh)
      ("Lw = "%string, Lw v) side_bottom;
    dimLine (ox + sW) (oy + sT) (ox + sW) (oy + sT + sLh)
      ("Lh = "%string, Lh v) side_right ].

End Dimensions.

(** A lip three times as wide as the slab is thick. *)
Definition example_wide_lip : Form :=
  mkForm (Some 1000) (Some 700) (Some 100) (Some 300) (Some 200) (Some 0)
    "1" true.

(** ** The isometric view *)

(** A polygon element of the drawing: its points and the presentation
    attributes the script writes ([opacity] is [None] where the
    attribute is not written). *)
Record Polygon : Type := mkPolygon {
  points : list (R * R);
  fill : string;
  stroke_width : string;
  opacity : option string
}.

Module Projection.

Definition svgW : R := 700.
Definition svgH : R := 500.

(** The locals of [drawIsometric] ahead of the outline. *)
Definition totalH (v : Values) : R := T v + Lh v.
Definition maxDim (v : Values) : R := Rmax (Rmax (W v) (L v)) (totalH v).
Definition baseScale (v : Values) : R := 180 / maxDim v.
Definition ax (v : Values) : R := cos (PI / 6) * baseScale v.
Definition ay (v : Values) : R := sin (PI / 6) * baseScale v.
Definition cx : R := svgW / 2.
Definition cy : R := svgH / 2 + 20.

Definition iso (v : Values) (x3 y3 z3 : R) : R * R :=
  (cx + x3 * ax v - z3 * ax v,
   cy - y3 * baseScale v + x3 * ay v + z3 * ay v).

Definition frontPts (v : Values) : list (R * R) :=
  map (fun p => iso v (fst p) (snd p) 0) (Isometric.csTop v).
Definition backPts (v : Values) : list (R * R) :=
  map (fun p => iso v (fst p) (snd p) (L v)) (Isometric.csTop v).

Definition cTop : string := "rgba(158,170,185,0.75)".
Definition cFront : string := "rgba(120,135,150,0.8)".
Definition cSide : string := "rgba(100,115,130,0.80)".
Definition cEdge : string := "rgba(180,140,170,0.7)".

(** The fill and opacity chosen for the side face over an outline edge
    of direction [(dx, dy)]. *)
Definition shade (dx dy : R) : string * string :=
  if JS.ltb (Rabs dy) 0.01 && JS.gtb dx 0 then (cTop, "1"%string)
  else if JS.ltb (Rabs dx) 0.01 && JS.ltb dy 0 then (cSide, "1"%string)
  else if JS.ltb (Rabs dx) 0.01 && JS.gtb dy 0 then (cFront, "0.5"%string)
  else if JS.ltb (Rabs dy) 0.01 && JS.ltb dx 0 then (cTop, "0.4"%string)
  else if JS.gtb dx 0 && JS.ltb dy 0 then (cEdge, "1"%string)
  else (cFront, "0.6"%string).

(** The side face drawn at step [i] of the loop. *)
Definition sideFace (v : Values) (i : nat) : Polygon :=
  let pt := fun l k => nth k l (0, 0) in
  let face := [ pt (frontPts v) i; pt (frontPts v) (i + 1)%nat;
                pt (backPts v) (i + 1)%nat; pt (backPts v) i ] in
  let dx := fst (pt (Isometric.csTop v) (i + 1)%nat) - fst (pt (Isometric.csTop v) i) in
  let dy := snd (pt (Isometric.csTop v) (i + 1)%nat) - snd (pt (Isometric.csTop v) i) in
  {| points := face;
     fill := fst (shade dx dy);
     stroke_width := "1";
     opacity := Some (snd (shade dx dy)) |}.

(** The polygons of the drawing, in the order they are written: the
    side faces for [i] from 0 to [n - 2], then the front face. *)
Definition polygons (v : Values) : list Polygon :=
  let n := List.length (Isometric.csTop v) in
  map (sideFace v) (seq 0 (n - 1))
    ++ [ {| points := frontPts v; fill := cFront; stroke_width := "1.5";
            opacity := None |} ].

End Projection.

(** The isometric view of the chamfer-only predecessor. *)
Module AppProjection.

Definition svgW : R := 500.
Definition svgH : R := 400.

Definition totalH (v : App.Values) : R := App.T v + App.Lh v.
Definition maxDim (v : App.Values) : R :=
  Rmax (Rmax (App.W v) (App.L v)) (totalH v).
Definition baseScale (v : App.Values) : R := 140 / maxDim v.
Definition ax (v : App.Values) : R := cos (PI / 6) * baseScale v.
Definition ay (v : App.Values) : R := sin (PI / 6) * baseScale v.
Definition cx : R := svgW / 2.
Definition cy : R := svgH / 2 + 20.

Definition iso (v : App.Values) (x3 y3 z3 : R) : R * R :=
  (cx + x3 * ax v - z3 * ax v,
   cy - y3 * baseScale v + x3 * ay v + z3 * ay v).

Definition csTop (v : App.Values) : list (R * R) :=
  if JS.gtb (App.C v) 0 then
    [ (0, App.T v);
      (App.W v - App.C v, App.T v);
      (App.W v, App.T v - App.C v);
      (App.W v, - App.Lh v);
      (App.W v - App.Lw v, - App.Lh v);
      (App.W v - App.Lw v, 0);
      (0, 0) ]
  else
    [ (0, App.T v);
      (App.W v, App.T v);
      (App.W v, - App.Lh v);
      (App.W v - App.Lw v, - App.Lh v);
      (App.W v - App.Lw v, 0);
      (0, 0) ].

Definition frontPts (v : App.Values) : list (R * R) :=
  map (fun p => iso v (fst p) (snd p) 0) (csTop v).
Definition backPts (v : App.Values) : list (R * R) :=
  map (fun p => iso v (fst p) (snd p) (App.L v)) (csTop v).

(** The face between outline points [i] and [j]. *)
Definition quad (v : App.Values) (i j : nat) : list (R * R) :=
  [ nth i (frontPts v) (0, 0); nth j (frontPts v) (0, 0);
    nth j (backPts v) (0, 0); nth i (backPts v) (0, 0) ].

Definition polygons (v : App.Values) : list Polygon :=
  (if JS.gtb (App.C v) 0 then
     [ mkPolygon (quad v 0 1) Projection.cTop "1" None;
       mkPolygon (quad v 1 2) Projection.cEdge "1" None;
       mkPolygon (quad v 2 3) Projection.cSide "1" None;
       mkPolygon (quad v 3 4) Projection.cTop "1" None;
       mkPolygon (quad v 4 5) Projection.cFront "1" (Some "0.5"%string);
       mkPolygon (quad v 5 6) Projection.cTop "1" (Some "0.4"%string) ]
   else
     [ mkPolygon (quad v 0 1) Projection.cTop "1" None;
       mkPolygon (quad v 1 2) Projection.cSide "1" None;
       mkPolygon (quad v 2 3) Projection.cTop "1" None;
       mkPolygon (quad v 3 4) Projection.cFront "1" (Some "0.5"%string);
       mkPolygon (quad v 4 5) Projection.cTop "1" (Some "0.4"%string) ])
    ++ [ mkPolygon (frontPts v) Projection.cFront "1.5" None ].

End AppProjection.

(** ** Area of an outline *)

Module Outline.

Definition cross (p q : R * R) : R := fst p * snd q - fst q * snd p.

(** The sum of the cross products of consecutive points, closing the
    outline on [first]. *)
Fixpoint shoelace (first : R * R) (l : list (R * R)) : R :=
  match l with
  | [] => 0
  | p :: l' =>
      match l' with
      | [] => cross p first
      | q :: _ => cross p q + shoelace first l'
      end
  end.

(** The area enclosed by an outline listed clockwise (with the second
    coordinate pointing up). *)
Definition area (l : list (R * R)) : R :=
  match l with
  | [] => 0
  | p :: _ => - shoelace p l / 2
  end.

End Outline.

(** The two lists [collect] builds, as a function of the outcome of its
    nine conditions. *)
Definition report_of (b1 b2 b3 b4 b5 b6 b7 b8 b9 : bool) : Report :=
  let r := {| errors := []; errorInputs := empty_set Input |} in
  let r := check b1 msg_L el_length r in
  let r := check b2 msg_W el_width r in
  let r := check b3 msg_T el_flatThickness r in
  let r := check b4 msg_Lw el_lipWidth r in
  let r := check b5 msg_Lh el_lipHeight r in
  let r := check b6 msg_Tr el_chamfer r in
  let r := check b7 msg_qty el_quantity r in
  let r := check b8 msg_Tr_T el_chamfer r in
  let r := check b9 msg_Lw_W el_lipWidth r in
  r.

(** * Properties *)

(** ** Comparisons and defaults *)

Module JSFacts.

Lemma ltb_true x y : JS.ltb x y = true <-> x < y.
Proof. unfold JS.ltb; destruct (Rlt_dec x y); split; intros; try easy; lra. Qed.

Lemma ltb_false x y : JS.ltb x y = false <-> y <= x.
Proof. unfold JS.ltb; destruct (Rlt_dec x y); split; intros; try easy; lra. Qed.

Lemma leb_true x y : JS.leb x y = true <-> x <= y.
Proof. unfold JS.leb; destruct (Rle_dec x y); split; intros; try easy; lra. Qed.

Lemma leb_false x y : JS.leb x y = false <-> y < x.
Proof. unfold JS.leb; destruct (Rle_dec x y); split; intros; try easy; lra. Qed.

Lemma gtb_true x y : JS.gtb x y = true <-> y < x.
Proof. apply ltb_true. Qed.

Lemma gtb_false x y : JS.gtb x y = false <-> x <= y.
Proof. apply ltb_false. Qed.

Lemma geb_true x y : JS.geb x y = true <-> y <= x.
Proof. apply leb_true. Qed.

Lemma geb_false x y : JS.geb x y = false <-> x < y.
Proof. apply leb_false. Qed.

Lemma eqb_true x y : JS.eqb x y = true <-> x = y.
Proof. unfold JS.eqb; destruct (Req_dec_T x y); split; intros; easy. Qed.

Lemma eqb_false x y : JS.eqb x y = false <-> x <> y.
Proof. unfold JS.eqb; destruct (Req_dec_T x y); split; intros; easy. Qed.

(** A parsed number defaulted with zero is the number itself. *)
Lemma or_else_Some_0 x : JS.or_else (Some x) 0 = x.
Proof.
  unfold JS.or_else. destruct (JS.eqb x 0) eqn:E; [|reflexivity].
  apply eqb_true in E. now symmetry.
Qed.

Lemma or_else_None d : JS.or_else None d = d.
Proof. reflexivity. Qed.

Lemma Math_max_0_nonneg x : 0 <= x -> JS.Math_max 0 x = x.
Proof. intros H. unfold JS.Math_max. now apply Rmax_right. Qed.

Lemma Math_max_0_nonpos x : x <= 0 -> JS.Math_max 0 x = 0.
Proof. intros H. unfold JS.Math_max. now apply Rmax_left. Qed.

Lemma Math_round_IZR (x : R) (n : Z) :
  IZR n - 1 / 2 <= x < IZR n + 1 / 2 -> JS.Math_round x = n.
Proof.
  intros [Hlo Hhi]. unfold JS.Math_round.
  apply Zfloor_eq. lra.
Qed.

End JSFacts.

(** Splits on every comparison of the goal, leaving the order fact it
    stands for in the context. *)
Ltac js_cases :=
  repeat match goal with
    | |- context [JS.ltb ?x ?y] =>
        let E := fresh "E" in
        destruct (JS.ltb x y) eqn:E;
        [apply JSFacts.ltb_true in E | apply JSFacts.ltb_false in E]
    | |- context [JS.leb ?x ?y] =>
        let E := fresh "E" in
        destruct (JS.leb x y) eqn:E;
        [apply JSFacts.leb_true in E | apply JSFacts.leb_false in E]
    | |- context [JS.gtb ?x ?y] =>
        let E := fresh "E" in
        destruct (JS.gtb x y) eqn:E;
        [apply JSFacts.gtb_true in E | apply JSFacts.gtb_false in E]
    | |- context [JS.geb ?x ?y] =>
        let E := fresh "E" in
        destruct (JS.geb x y) eqn:E;
        [apply JSFacts.geb_true in E | apply JSFacts.geb_false in E]
    | |- context [JS.eqb ?x ?y] =>
        let E := fresh "E" in
        destruct (JS.eqb x y) eqn:E;
        [apply JSFacts.eqb_true in E | apply JSFacts.eqb_false in E]
    end.

(** ** The number pi *)

Lemma PI_bounds : 3.1415926 < PI < 3.1415927.
Proof.
  generalize (PI_2_3_7_ineq 3).
  unfold PI_2_3_7_tg, tg_alt, Ratan_seq.
  cbn [sum_f_R0 Nat.mul Nat.add pow].
  rewrite !INR_IZR_INZ.
  cbn [Z.of_nat Pos.of_succ_nat Pos.succ].
  intros [Hlo Hhi].
  split; lra.
Qed.

(** ** The validator against the invariant set *)

Lemma errors_check c msg el r :
  errors (check c msg el r) = errors r ++ pick c msg.
Proof. destruct c; simpl; [reflexivity | now rewrite app_nil_r]. Qed.

Lemma errors_collect v :
  errors (collect v) =
    pick (c_L v) msg_L ++ pick (c_W v) msg_W ++ pick (c_T v) msg_T ++
    pick (c_Lw v) msg_Lw ++ pick (c_Lh v) msg_Lh ++ pick (c_Tr v) msg_Tr ++
    pick (c_qty v) msg_qty ++ pick (c_Tr_T v) msg_Tr_T ++
    pick (c_Lw_W v) msg_Lw_W.
Proof.
  unfold collect. rewrite !errors_check. cbn [errors app].
  now rewrite <- !app_assoc.
Qed.

Lemma validate_fst f :
  fst (validate f) = match errors (collect (getValues f)) with [] => true | _ => false end.
Proof.
  unfold validate. destruct (errors (collect (getValues f))); reflexivity.
Qed.

Lemma pick_nil c msg : pick c msg = [] <-> c = false.
Proof. destruct c; cbn; split; intros; congruence. Qed.

Lemma app_nil_iff (A : Type) (l l' : list A) : l ++ l' = [] <-> l = [] /\ l' = [].
Proof.
  split; [apply app_eq_nil|]. intros [-> ->]. reflexivity.
Qed.

Lemma collect_nil_iff v : errors (collect v) = [] <-> Invariants v.
Proof.
  rewrite errors_collect, !app_nil_iff, !pick_nil. unfold Invariants.
  unfold c_L, c_W, c_T, c_Lw, c_Lh, c_Tr, c_qty, c_Tr_T, c_Lw_W.
  rewrite !andb_false_iff, !JSFacts.leb_false, JSFacts.ltb_false,
    !JSFacts.gtb_false, !JSFacts.geb_false, Z.ltb_ge.
  intuition lra.
Qed.

Lemma validate_true_iff f :
  fst (validate f) = true <-> Invariants (getValues f).
Proof.
  rewrite validate_fst, <- collect_nil_iff.
  destruct (errors (collect (getValues f))); split; intros; easy.
Qed.

(** A form whose six dimension fields all hold a number. *)
Lemma getValues_numbers l w t lw lh tr q b :
  getValues (mkForm (Some l) (Some w) (Some t) (Some lw) (Some lh) (Some tr) q b) =
    mkValues l w t lw lh tr (JS.or_elseZ (JS.parseInt q) 1)
      (if b then bullnose else chamfer).
Proof.
  unfold getValues, getEdgeType; cbn [length_value width_value
    flatThickness_value lipWidth_value lipHeight_value chamfer_value
    quantity_value edgeBullnose_checked].
  now rewrite !JSFacts.or_else_Some_0.
Qed.

Lemma App_getValues_numbers l w t lw lh c q b :
  App.getValues (mkForm (Some l) (Some w) (Some t) (Some lw) (Some lh) (Some c) q b) =
    App.mkValues l w t lw lh c (JS.or_elseZ (JS.parseInt q) 1).
Proof.
  unfold App.getValues; cbn [length_value width_value
    flatThickness_value lipWidth_value lipHeight_value chamfer_value
    quantity_value].
  now rewrite !JSFacts.or_else_Some_0.
Qed.

Lemma calculate_valid f :
  fst (validate f) = true ->
  calculate f =
    {| volumeOne := formatVolume (volOne (getValues f));
       volumeTotal := formatVolume (volTotal (getValues f)) |}.
Proof. intros H. unfold calculate. now rewrite H. Qed.

Lemma calculate_invalid f :
  fst (validate f) = false ->
  calculate f = {| volumeOne := Dash; volumeTotal := Dash |}.
Proof. intros H. unfold calculate. now rewrite H. Qed.

Lemma formatVolume_0 : formatVolume 0 = Dash.
Proof.
  unfold formatVolume. cbv zeta.
  replace (0 / 1e9) with 0 by lra.
  destruct (JS.eqb 0 0) eqn:E; [reflexivity|].
  apply JSFacts.eqb_false in E. congruence.
Qed.

Lemma formatVolume_Fixed6 mm3 :
  100000 <= mm3 -> formatVolume mm3 = Fixed6 (mm3 / 1e9).
Proof.
  intros H. unfold formatVolume. cbv zeta.
  js_cases; try reflexivity; exfalso; lra.
Qed.

(** ** Worked examples of the documentation *)

Lemma example_chamfer_values :
  getValues example_chamfer = mkValues 1000 700 100 150 200 50 1 chamfer.
Proof. unfold example_chamfer. now rewrite getValues_numbers. Qed.

Lemma example_bullnose_values :
  getValues example_bullnose = mkValues 1000 700 100 150 200 50 1 bullnose.
Proof. unfold example_bullnose. now rewrite getValues_numbers. Qed.

Lemma example_chamfer_valid : fst (validate example_chamfer) = true.
Proof.
  apply validate_true_iff. rewrite example_chamfer_values.
  unfold Invariants; cbn. repeat split; (lra || lia || (intros; lra)).
Qed.

Lemma example_bullnose_valid : fst (validate example_bullnose) = true.
Proof.
  apply validate_true_iff. rewrite example_bullnose_values.
  unfold Invariants; cbn. repeat split; (lra || lia || (intros; lra)).
Qed.

Lemma example_chamfer_baseVol :
  baseVol (getValues example_chamfer) = 100000000.
Proof. rewrite example_chamfer_values; unfold baseVol; cbn; lra. Qed.

Lemma example_chamfer_edgeVol :
  edgeVol (getValues example_chamfer) = 1250000.
Proof. rewrite example_chamfer_values; unfold edgeVol; cbn; lra. Qed.

Lemma example_chamfer_volOne :
  volOne (getValues example_chamfer) = 98750000.
Proof.
  unfold volOne. rewrite example_chamfer_baseVol, example_chamfer_edgeVol.
  rewrite JSFacts.Math_max_0_nonneg; lra.
Qed.

(** ** Chamfer volume *)

(** C1. For every form the validator accepts with the chamfer edge
    selected, the single-unit volume is
    max(0, L*(W*T + Lw*Lh) - 1/2 * Tr^2 * L), and that is the number the
    first result text shows; the chamfer-only predecessor computes the
    same expression for every form.  The removal is one half of what the
    hypotenuse Tr*sqrt 2 in place of the leg would give, and differs
    from it whenever Tr and L are not zero.  For L=1000, W=700, T=100,
    Lw=150, Lh=200, Tr=50 the volume is 98,750,000 cubic millimetres,
    shown as 0.09875 cubic metres in fixed notation. *)
Theorem chamfer_volume :
  (forall f : Form,
      fst (validate f) = true ->
      edge (getValues f) = chamfer ->
      let v := getValues f in
      volOne v =
        Rmax 0 (L v * (W v * T v + Lw v * Lh v) - 1 / 2 * (Tr v) ^ 2 * L v)
      /\ volumeOne (calculate f) = formatVolume (volOne v))
  /\ (forall f : Form,
        let v := App.getValues f in
        App.volOne v =
          Rmax 0 (App.L v * (App.W v * App.T v + App.Lw v * App.Lh v)
                  - 1 / 2 * (App.C v) ^ 2 * App.L v)
        /\ volumeOne (App.calculate f) = formatVolume (App.volOne v))
  /\ (forall v : Values,
        edge v = chamfer ->
        1 / 2 * (Tr v * sqrt 2) ^ 2 * L v = 2 * edgeVol v
        /\ (Tr v <> 0 -> L v <> 0 ->
            edgeVol v <> 1 / 2 * (Tr v * sqrt 2) ^ 2 * L v))
  /\ (fst (validate example_chamfer) = true
      /\ baseVol (getValues example_chamfer) = 100000000
      /\ edgeVol (getValues example_chamfer) = 1250000
      /\ volOne (getValues example_chamfer) = 98750000
      /\ volumeOne (calculate example_chamfer) = Fixed6 0.09875
      /\ App.volOne (App.getValues example_chamfer) = 98750000).
Proof.
  split; [|split; [|split]].
  - intros f Hok He v. subst v. split.
    + unfold volOne, JS.Math_max, baseVol, edgeVol. rewrite He.
      f_equal. lra.
    + now rewrite calculate_valid.
  - intros f v. subst v. split; [|reflexivity].
    unfold App.volOne, JS.Math_max, App.baseVol, App.chamferVol.
    f_equal. lra.
  - intros v He. unfold edgeVol. rewrite He.
    assert (Hs : sqrt 2 * sqrt 2 = 2) by (apply sqrt_sqrt; lra).
    assert (Hd : 1 / 2 * (Tr v * sqrt 2) ^ 2 * L v = 2 * (0.5 * Tr v * Tr v * L v)).
    { replace ((Tr v * sqrt 2) ^ 2) with (Tr v * Tr v * (sqrt 2 * sqrt 2)) by ring.
      rewrite Hs. lra. }
    split; [exact Hd|].
    intros HTr HL Heq. rewrite Hd in Heq.
    assert (Hz : Tr v * Tr v * L v = 0) by lra.
    apply Rmult_integral in Hz. destruct Hz as [Hz|Hz]; [|easy].
    apply Rmult_integral in Hz. now destruct Hz.
  - assert (Hb := example_chamfer_baseVol).
    assert (He := example_chamfer_edgeVol).
    assert (Hv := example_chamfer_volOne).
    split; [exact example_chamfer_valid|].
    split; [exact Hb|]. split; [exact He|]. split; [exact Hv|]. split.
    + rewrite calculate_valid by apply example_chamfer_valid.
      cbn [volumeOne]. rewrite Hv, formatVolume_Fixed6 by lra.
      f_equal. lra.
    + unfold example_chamfer. rewrite App_getValues_numbers.
      unfold App.volOne, App.baseVol, App.chamferVol; cbn.
      replace (1000 * (700 * 100 + 150 * 200) - 0.5 * 50 * 50 * 1000)
        with 98750000 by lra.
      rewrite JSFacts.Math_max_0_nonneg; lra.
Qed.

(** The theorem at the worked example of the documentation. *)
Lemma chamfer_volume_witness :
  let v := getValues example_chamfer in
  volOne v =
    Rmax 0 (L v * (W v * T v + Lw v * Lh v) - 1 / 2 * (Tr v) ^ 2 * L v).
Proof.
  intros v.
  apply (proj1 chamfer_volume example_chamfer).
  - exact example_chamfer_valid.
  - rewrite example_chamfer_values. reflexivity.
Defined.

(** ** Bullnose volume *)

Lemma example_bullnose_edgeVol :
  536504.5 < edgeVol (getValues example_bullnose) < 536504.7.
Proof.
  rewrite example_bullnose_values. unfold edgeVol; cbn.
  generalize PI_bounds. lra.
Qed.

Lemma example_bullnose_volOne :
  99463495.3 < volOne (getValues example_bullnose) < 99463495.5.
Proof.
  generalize example_bullnose_edgeVol.
  unfold volOne. rewrite example_bullnose_values.
  intros He.
  rewrite JSFacts.Math_max_0_nonneg; unfold baseVol, edgeVol in *; cbn in *; lra.
Qed.

(** C2, as stated, fails at the worked example: the edge removal the
    code computes for L=1000, W=700, T=100, Lw=150, Lh=200, Tr=50 is not
    within 11 cubic millimetres of 536,516, and the final volume is not
    within 11 of 99,463,484. *)
Lemma bullnose_figures_off :
  ~ (Rabs (edgeVol (getValues example_bullnose) - 536516) <= 11
     \/ Rabs (volOne (getValues example_bullnose) - 99463484) <= 11).
Proof.
  generalize example_bullnose_edgeVol example_bullnose_volOne.
  intros He Hv [H|H].
  - rewrite Rabs_left in H by lra. lra.
  - rewrite Rabs_right in H by lra. lra.
Qed.

(** C2, amended. For every form the validator accepts with the bullnose
    edge selected, the single-unit volume is
    max(0, L*(W*T + Lw*Lh) - Tr^2 * (1 - pi/4) * L), and that is the
    number the first result text shows.  For L=1000, W=700, T=100,
    Lw=150, Lh=200, Tr=50 the edge removal lies between 536,504.5 and
    536,504.7 cubic millimetres and the final volume between
    99,463,495.3 and 99,463,495.5, shown in fixed notation (0.099463
    cubic metres to six places). *)
Theorem bullnose_volume :
  (forall f : Form,
      fst (validate f) = true ->
      edge (getValues f) = bullnose ->
      let v := getValues f in
      volOne v =
        Rmax 0 (L v * (W v * T v + Lw v * Lh v)
                - (Tr v) ^ 2 * (1 - PI / 4) * L v)
      /\ volumeOne (calculate f) = formatVolume (volOne v))
  /\ (fst (validate example_bullnose) = true
      /\ 536504.5 < edgeVol (getValues example_bullnose) < 536504.7
      /\ 99463495.3 < volOne (getValues example_bullnose) < 99463495.5
      /\ (exists m3 : R,
            volumeOne (calculate example_bullnose) = Fixed6 m3
            /\ 0.0994634 < m3 < 0.0994635)).
Proof.
  split.
  - intros f Hok He v. subst v. split.
    + unfold volOne, JS.Math_max, baseVol, edgeVol. rewrite He.
      f_equal. lra.
    + now rewrite calculate_valid.
  - split; [exact example_bullnose_valid|].
    split; [exact example_bullnose_edgeVol|].
    split; [exact example_bullnose_volOne|].
    generalize example_bullnose_volOne. intros Hv.
    exists (volOne (getValues example_bullnose) / 1e9). split.
    + rewrite calculate_valid by apply example_bullnose_valid.
      cbn [volumeOne]. apply formatVolume_Fixed6. lra.
    + lra.
Qed.

Lemma bullnose_volume_witness :
  let v := getValues example_bullnose in
  volOne v =
    Rmax 0 (L v * (W v * T v + Lw v * Lh v) - (Tr v) ^ 2 * (1 - PI / 4) * L v).
Proof.
  intros v.
  apply (proj1 bullnose_volume example_bullnose).
  - exact example_bullnose_valid.
  - rewrite example_bullnose_values. reflexivity.
Defined.

(** ** Quantity *)

Lemma volOne_with_quantity f s :
  volOne (getValues (with_quantity f s)) = volOne (getValues f).
Proof. reflexivity. Qed.

Lemma qty_with_quantity f s :
  qty (getValues (with_quantity f s)) = JS.or_elseZ (JS.parseInt s) 1.
Proof. reflexivity. Qed.

Lemma or_elseZ_Some_pos n d : (1 <= n)%Z -> JS.or_elseZ (Some n) d = n.
Proof. intros H. destruct n; [lia | reflexivity | lia]. Qed.

Lemma Invariants_with_quantity f s :
  Invariants (getValues (with_quantity f s)) <->
  (Invariants (getValues (with_quantity f "1"))
   /\ (1 <= JS.or_elseZ (JS.parseInt s) 1)%Z).
Proof.
  unfold Invariants.
  change (qty (getValues (with_quantity f s)))
    with (JS.or_elseZ (JS.parseInt s) 1).
  change (qty (getValues (with_quantity f "1"))) with 1%Z.
  change (L (getValues (with_quantity f s))) with (L (getValues (with_quantity f "1"))).
  change (W (getValues (with_quantity f s))) with (W (getValues (with_quantity f "1"))).
  change (T (getValues (with_quantity f s))) with (T (getValues (with_quantity f "1"))).
  change (Lw (getValues (with_quantity f s))) with (Lw (getValues (with_quantity f "1"))).
  change (Lh (getValues (with_quantity f s))) with (Lh (getValues (with_quantity f "1"))).
  change (Tr (getValues (with_quantity f s))) with (Tr (getValues (with_quantity f "1"))).
  intuition lia.
Qed.

(** C4. Take a form the validator accepts with quantity 1 and put any
    text that reads as a positive integer n in the quantity field.  The
    form is still accepted, the single-unit volume is unchanged, and the
    total is the single-unit volume (which is the total at quantity 1)
    times n, with no clamp or rounding in between; the two result texts
    show the single-unit volume and that product.  The same holds of the
    chamfer-only predecessor: its single-unit volume does not depend on
    the quantity, its total at quantity 1 is the single-unit volume, its
    total at quantity n is the single-unit volume times n, and its two
    result texts show these two numbers. *)
Theorem total_linear_in_quantity :
  forall (f : Form) (s : string) (n : Z),
    (1 <= n)%Z ->
    JS.parseInt s = Some n ->
    fst (validate (with_quantity f "1")) = true ->
    let v1 := getValues (with_quantity f "1") in
    let vn := getValues (with_quantity f s) in
    fst (validate (with_quantity f s)) = true
    /\ volOne vn = volOne v1
    /\ volTotal v1 = volOne v1
    /\ volTotal vn = volTotal v1 * IZR n
    /\ volumeTotal (calculate (with_quantity f s)) =
         formatVolume (volOne v1 * IZR n)
    /\ App.volTotal (App.getValues (with_quantity f s)) =
         App.volTotal (App.getValues (with_quantity f "1")) * IZR n
    /\ volTotal vn = volOne vn * IZR n
    /\ volumeOne (calculate (with_quantity f s)) = formatVolume (volOne v1)
    /\ App.volOne (App.getValues (with_quantity f s)) =
         App.volOne (App.getValues (with_quantity f "1"))
    /\ App.volTotal (App.getValues (with_quantity f "1")) =
         App.volOne (App.getValues (with_quantity f "1"))
    /\ App.volTotal (App.getValues (with_quantity f s)) =
         App.volOne (App.getValues (with_quantity f s)) * IZR n
    /\ App.calculate (with_quantity f s) =
         {| volumeOne :=
              formatVolume (App.volOne (App.getValues (with_quantity f "1")));
            volumeTotal :=
              formatVolume
                (App.volOne (App.getValues (with_quantity f "1")) * IZR n) |}.
Proof.
  intros f s n Hn Hs Hok v1 vn. subst v1 vn.
  assert (HAq : App.qty (App.getValues (with_quantity f s)) = n).
  { change (App.qty (App.getValues (with_quantity f s)))
      with (JS.or_elseZ (JS.parseInt s) 1).
    rewrite Hs. now apply or_elseZ_Some_pos. }
  assert (HA1 : App.volTotal (App.getValues (with_quantity f "1"))
                = App.volOne (App.getValues (with_quantity f "1"))).
  { unfold App.volTotal.
    change (App.qty (App.getValues (with_quantity f "1"))) with 1%Z. lra. }
  assert (HAn : App.volTotal (App.getValues (with_quantity f s))
                = App.volOne (App.getValues (with_quantity f "1")) * IZR n).
  { unfold App.volTotal. rewrite HAq. reflexivity. }
  assert (Hq : qty (getValues (with_quantity f s)) = n)
    by (rewrite qty_with_quantity, Hs; now apply or_elseZ_Some_pos).
  assert (Hok' : fst (validate (with_quantity f s)) = true).
  { apply validate_true_iff, Invariants_with_quantity.
    apply validate_true_iff in Hok. split; [exact Hok|].
    rewrite Hs, or_elseZ_Some_pos; assumption. }
  assert (H1 : volTotal (getValues (with_quantity f "1"))
               = volOne (getValues (with_quantity f "1"))).
  { unfold volTotal.
    change (qty (getValues (with_quantity f "1"))) with 1%Z. lra. }
  assert (Hn' : volTotal (getValues (with_quantity f s))
                = volOne (getValues (with_quantity f "1")) * IZR n).
  { unfold volTotal. rewrite Hq. now rewrite volOne_with_quantity. }
  repeat split.
  - exact Hok'.
  - exact H1.
  - now rewrite Hn', H1.
  - rewrite calculate_valid by exact Hok'. cbn [volumeTotal].
    now rewrite Hn'.
  - unfold App.volTotal.
    change (App.qty (App.getValues (with_quantity f s)))
      with (JS.or_elseZ (JS.parseInt s) 1).
    change (App.qty (App.getValues (with_quantity f "1"))) with 1%Z.
    rewrite Hs, or_elseZ_Some_pos by assumption.
    change (App.volOne (App.getValues (with_quantity f s)))
      with (App.volOne (App.getValues (with_quantity f "1"))).
    lra.
  - unfold volTotal. now rewrite Hq.
  - rewrite calculate_valid by exact Hok'. cbn [volumeOne].
    now rewrite volOne_with_quantity.
  - exact HA1.
  - exact HAn.
  - unfold App.calculate. rewrite HAn. reflexivity.
Qed.

(** A dozen stones of the worked example. *)
Lemma total_linear_in_quantity_witness :
  volTotal (getValues (with_quantity example_chamfer "12")) =
    volTotal (getValues (with_quantity example_chamfer "1")) * 12.
Proof.
  apply (total_linear_in_quantity example_chamfer "12" 12).
  - lia.
  - reflexivity.
  - exact example_chamfer_valid.
Defined.

(** ** Zero edge depth *)

(** C5. For every form the validator accepts whose edge depth reads as
    zero, the edge removal is zero and the single-unit volume is
    L*(W*T + Lw*Lh), whichever edge type is selected. *)
Theorem zero_edge_depth_volume :
  forall f : Form,
    fst (validate f) = true ->
    Tr (getValues f) = 0 ->
    let v := getValues f in
    edgeVol v = 0
    /\ volOne v = L v * (W v * T v + Lw v * Lh v)
    /\ volumeOne (calculate f) = formatVolume (L v * (W v * T v + Lw v * Lh v)).
Proof.
  intros f Hok HTr v. subst v.
  assert (He : edgeVol (getValues f) = 0).
  { unfold edgeVol. rewrite HTr. destruct (edge (getValues f)); lra. }
  assert (Hv : volOne (getValues f) =
               L (getValues f) * (W (getValues f) * T (getValues f)
                                  + Lw (getValues f) * Lh (getValues f))).
  { unfold volOne. rewrite He. unfold baseVol.
    destruct (proj1 (validate_true_iff f) Hok) as (HL & HW & HT & HLw & HLh & _).
    rewrite JSFacts.Math_max_0_nonneg; [ring|].
    assert (HWT : 0 < W (getValues f) * T (getValues f))
      by now apply Rmult_lt_0_compat.
    assert (HLL : 0 < Lw (getValues f) * Lh (getValues f))
      by now apply Rmult_lt_0_compat.
    rewrite Rminus_0_r. apply Rmult_le_pos; lra. }
  repeat split; [exact He | exact Hv |].
  rewrite calculate_valid by exact Hok. cbn [volumeOne]. now rewrite Hv.
Qed.

Lemma example_sharp_valid b : fst (validate (example_sharp b)) = true.
Proof.
  apply validate_true_iff. unfold example_sharp. rewrite getValues_numbers.
  unfold Invariants; cbn. repeat split; try (lra || (intros; lra)).
  now vm_compute.
Qed.

(** The worked example with the edge depth set to zero and the bullnose
    edge selected. *)
Lemma zero_edge_depth_volume_witness :
  volOne (getValues (example_sharp true)) = 1000 * (700 * 100 + 150 * 200).
Proof.
  generalize (zero_edge_depth_volume (example_sharp true)
                (example_sharp_valid true)).
  unfold example_sharp. rewrite getValues_numbers. cbn.
  intros H. apply H. reflexivity.
Defined.

(** ** Chamfer against bullnose *)

(** C6. For every edge depth Tr > 0 and length L > 0 the chamfer removal
    1/2 * Tr^2 * L is strictly greater than the bullnose removal
    Tr^2 * (1 - pi/4) * L, because 1 - pi/4 < 1/2; so with all other
    parameters fixed the bullnose volume is strictly larger than the
    chamfer volume as soon as the bullnose volume is positive (in
    particular when both are). *)
Theorem chamfer_removes_more_than_bullnose :
  forall (l w t lw lh tr : R) (q : Z),
    0 < tr -> 0 < l ->
    let vc := mkValues l w t lw lh tr q chamfer in
    let vb := mkValues l w t lw lh tr q bullnose in
    edgeVol vc = 1 / 2 * tr ^ 2 * l
    /\ edgeVol vb = tr ^ 2 * (1 - PI / 4) * l
    /\ 1 - PI / 4 < 1 / 2
    /\ edgeVol vb < edgeVol vc
    /\ (0 < volOne vb -> volOne vc < volOne vb).
Proof.
  intros l w t lw lh tr q Htr Hl vc vb. subst vc vb.
  assert (Hpi := PI_bounds).
  assert (Hk : 1 - PI / 4 < 1 / 2) by lra.
  assert (Hsq : 0 < tr * tr * l) by (apply Rmult_lt_0_compat; nra).
  assert (Hc : edgeVol (mkValues l w t lw lh tr q chamfer) = 1 / 2 * tr ^ 2 * l)
    by (unfold edgeVol; cbn; lra).
  assert (Hb : edgeVol (mkValues l w t lw lh tr q bullnose)
               = tr ^ 2 * (1 - PI / 4) * l)
    by (unfold edgeVol; cbn; lra).
  assert (Hlt : edgeVol (mkValues l w t lw lh tr q bullnose)
                < edgeVol (mkValues l w t lw lh tr q chamfer)).
  { rewrite Hc, Hb.
    replace (tr ^ 2 * (1 - PI / 4) * l) with ((1 - PI / 4) * (tr * tr * l)) by ring.
    replace (1 / 2 * tr ^ 2 * l) with (1 / 2 * (tr * tr * l)) by ring.
    now apply Rmult_lt_compat_r. }
  repeat split; try assumption.
  unfold volOne, JS.Math_max.
  change (baseVol (mkValues l w t lw lh tr q chamfer))
    with (baseVol (mkValues l w t lw lh tr q bullnose)).
  set (b := baseVol (mkValues l w t lw lh tr q bullnose)) in *.
  intros Hpos.
  unfold Rmax in *.
  destruct (Rle_dec 0 (b - edgeVol (mkValues l w t lw lh tr q bullnose)));
    destruct (Rle_dec 0 (b - edgeVol (mkValues l w t lw lh tr q chamfer))); lra.
Qed.

(** The two edge types on the dimensions of the worked example. *)
Lemma chamfer_removes_more_than_bullnose_witness :
  edgeVol (mkValues 1000 700 100 150 200 50 1 bullnose)
  < edgeVol (mkValues 1000 700 100 150 200 50 1 chamfer).
Proof.
  apply (chamfer_removes_more_than_bullnose 1000 700 100 150 200 50 1); lra.
Defined.

(** ** A clamped volume *)

Lemma example_thin_values :
  getValues example_thin = mkValues 1000 1 100 0.5 1 99 1 chamfer.
Proof. unfold example_thin. now rewrite getValues_numbers. Qed.

Lemma example_thin_valid : fst (validate example_thin) = true.
Proof.
  apply validate_true_iff. rewrite example_thin_values.
  unfold Invariants; cbn. repeat split; (lra || lia || (intros; lra)).
Qed.

(** C10. The validator bounds the edge depth by T only: an accepted set
    of values stays accepted when W is replaced by any width above Lw,
    however small against Tr.  The form L=1000, W=1, T=100, Lw=0.5,
    Lh=1, Tr=99 with the chamfer edge is accepted although Tr > W; its
    edge removal exceeds its base volume, the clamp makes the
    single-unit volume 0, and both result texts are the dash.  In
    general an accepted form whose edge removal is at least its base
    volume shows the dash twice. *)
Theorem clamped_volume_shows_dash :
  (forall (v : Values) (w' : R),
      Invariants v -> Lw v < w' ->
      Invariants (mkValues (L v) w' (T v) (Lw v) (Lh v) (Tr v) (qty v) (edge v)))
  /\ (fst (validate example_thin) = true
      /\ W (getValues example_thin) < Tr (getValues example_thin)
      /\ baseVol (getValues example_thin) < edgeVol (getValues example_thin)
      /\ volOne (getValues example_thin) = 0
      /\ calculate example_thin = {| volumeOne := Dash; volumeTotal := Dash |})
  /\ (forall f : Form,
        fst (validate f) = true ->
        baseVol (getValues f) <= edgeVol (getValues f) ->
        volOne (getValues f) = 0
        /\ calculate f = {| volumeOne := Dash; volumeTotal := Dash |}).
Proof.
  assert (Hgen : forall f : Form,
             fst (validate f) = true ->
             baseVol (getValues f) <= edgeVol (getValues f) ->
             volOne (getValues f) = 0
             /\ calculate f = {| volumeOne := Dash; volumeTotal := Dash |}).
  { intros f Hok Hle.
    assert (Hv : volOne (getValues f) = 0)
      by (unfold volOne; apply JSFacts.Math_max_0_nonpos; lra).
    split; [exact Hv|].
    rewrite calculate_valid by exact Hok.
    unfold volTotal. rewrite Hv, Rmult_0_l. now rewrite formatVolume_0. }
  assert (Hlt : baseVol (getValues example_thin) < edgeVol (getValues example_thin))
    by (rewrite example_thin_values; unfold baseVol, edgeVol; cbn; lra).
  split; [|split].
  - intros v w' (HL & HW & HT & HLw & HLh & HTr0 & HTrT & HLwW & Hq) Hw.
    unfold Invariants; cbn. repeat split; try assumption; lra.
  - split; [exact example_thin_valid|].
    split; [rewrite example_thin_values; cbn; lra|].
    split; [exact Hlt|].
    apply (Hgen example_thin example_thin_valid). lra.
  - exact Hgen.
Qed.

Lemma clamped_volume_shows_dash_witness :
  calculate example_thin = {| volumeOne := Dash; volumeTotal := Dash |}.
Proof.
  apply (proj2 (proj2 clamped_volume_shows_dash) example_thin).
  - exact example_thin_valid.
  - rewrite example_thin_values. unfold baseVol, edgeVol; cbn. lra.
Defined.

(** ** The validator, statement by statement *)

Lemma leb_negb_gtb x y : JS.leb x y = negb (JS.gtb x y).
Proof. js_cases; try reflexivity; exfalso; lra. Qed.

Lemma ltb_negb_geb x y : JS.ltb x y = negb (JS.geb x y).
Proof. js_cases; try reflexivity; exfalso; lra. Qed.

Lemma In_pick (m : string) c m' : In m (pick c m') <-> c = true /\ m' = m.
Proof. destruct c; cbn; intuition congruence. Qed.

Lemma pick_incl c c' m :
  (c = true -> c' = true) -> incl (pick c m) (pick c' m).
Proof.
  intros H. destruct c; [rewrite H by reflexivity; apply incl_refl|].
  intros x [].
Qed.

(** The messages are pairwise different, so each one tells which
    statement pushed it. *)
Ltac which_message :=
  rewrite errors_collect, !in_app_iff, !In_pick;
  unfold msg_L, msg_W, msg_T, msg_Lw, msg_Lh, msg_Tr, msg_qty, msg_Tr_T,
    msg_Lw_W;
  split;
  [ intros H; repeat (destruct H as [H|H]); destruct H as [H E];
    first [discriminate E | exact H]
  | intros H; intuition ].

Lemma In_msg_qty v : In msg_qty (errors (collect v)) <-> c_qty v = true.
Proof. which_message. Qed.

Lemma In_msg_Tr_T v : In msg_Tr_T (errors (collect v)) <-> c_Tr_T v = true.
Proof. which_message. Qed.

Lemma In_msg_Lw_W v : In msg_Lw_W (errors (collect v)) <-> c_Lw_W v = true.
Proof. which_message. Qed.

Lemma c_Tr_T_iff v :
  c_Tr_T v = true <-> 0 < Tr v /\ 0 < T v /\ T v <= Tr v.
Proof.
  unfold c_Tr_T. rewrite !andb_true_iff.
  rewrite !JSFacts.gtb_true, JSFacts.geb_true. tauto.
Qed.

Lemma c_Lw_W_iff v :
  c_Lw_W v = true <-> 0 < Lw v /\ 0 < W v /\ W v <= Lw v.
Proof.
  unfold c_Lw_W. rewrite !andb_true_iff.
  rewrite !JSFacts.gtb_true, JSFacts.geb_true. tauto.
Qed.

Lemma errors_incl_violations v :
  incl (errors (collect v)) (Spec.violations v).
Proof.
  rewrite errors_collect. unfold Spec.violations.
  unfold c_L, c_W, c_T, c_Lw, c_Lh, c_Tr, c_qty, c_Tr_T, c_Lw_W.
  rewrite !leb_negb_gtb, ltb_negb_geb.
  repeat (apply incl_app_app; [apply incl_refl|]).
  apply incl_app_app; [| apply incl_app_app].
  - apply pick_incl. destruct (Z.ltb_spec (qty v) 1), (Z.leb_spec 1 (qty v));
      intros; (reflexivity || discriminate || lia).
  - apply pick_incl. rewrite !andb_true_iff, negb_true_iff.
    rewrite !JSFacts.gtb_true, JSFacts.geb_true, JSFacts.ltb_false. tauto.
  - apply pick_incl. rewrite !andb_true_iff, negb_true_iff.
    rewrite !JSFacts.gtb_true, JSFacts.geb_true, JSFacts.ltb_false. tauto.
Qed.

Lemma errors_eq_violations v :
  0 < T v -> 0 < W v -> 0 < Lw v ->
  errors (collect v) = Spec.violations v.
Proof.
  intros HT HW HLw.
  rewrite errors_collect. unfold Spec.violations.
  assert (Hq : c_qty v = negb (1 <=? qty v)%Z).
  { unfold c_qty.
    destruct (Z.ltb_spec (qty v) 1), (Z.leb_spec 1 (qty v));
      (reflexivity || lia). }
  assert (Ht : c_Tr_T v = JS.gtb (Tr v) 0 && negb (JS.ltb (Tr v) (T v))).
  { unfold c_Tr_T. js_cases; try reflexivity; exfalso; lra. }
  assert (Hw : c_Lw_W v = negb (JS.ltb (Lw v) (W v))).
  { unfold c_Lw_W. js_cases; try reflexivity; exfalso; lra. }
  rewrite Hq, Ht, Hw.
  unfold c_L, c_W, c_T, c_Lw, c_Lh, c_Tr.
  now rewrite !leb_negb_gtb, (ltb_negb_geb (Tr v) 0).
Qed.

Lemma violations_nil_iff v : Spec.violations v = [] <-> Invariants v.
Proof.
  split.
  - intros H. apply collect_nil_iff.
    generalize (errors_incl_violations v). rewrite H.
    intros Hi. now apply incl_l_nil.
  - intros Hinv.
    destruct Hinv as (HL & HW & HT & HLw & HLh & HTr0 & HTrT & HLwW & Hq).
    rewrite <- errors_eq_violations by assumption.
    apply collect_nil_iff. unfold Invariants. tauto.
Qed.

(** Decides every comparison between numerals in the goal. *)
Ltac js_eval :=
  repeat match goal with
    | |- context [JS.ltb ?x ?y] =>
        first [ rewrite (proj2 (JSFacts.ltb_true x y)) by lra
              | rewrite (proj2 (JSFacts.ltb_false x y)) by lra ]
    | |- context [JS.leb ?x ?y] =>
        first [ rewrite (proj2 (JSFacts.leb_true x y)) by lra
              | rewrite (proj2 (JSFacts.leb_false x y)) by lra ]
    | |- context [JS.gtb ?x ?y] =>
        first [ rewrite (proj2 (JSFacts.gtb_true x y)) by lra
              | rewrite (proj2 (JSFacts.gtb_false x y)) by lra ]
    | |- context [JS.geb ?x ?y] =>
        first [ rewrite (proj2 (JSFacts.geb_true x y)) by lra
              | rewrite (proj2 (JSFacts.geb_false x y)) by lra ]
    end.

(** Evaluates the nine conditions on a record of numerals. *)
Ltac run_collect :=
  rewrite errors_collect;
  unfold c_L, c_W, c_T, c_Lw, c_Lh, c_Tr, c_qty, c_Tr_T, c_Lw_W;
  cbn [L W T Lw Lh Tr qty edge];
  js_eval; reflexivity.

Lemma example_equal_widths_errors :
  errors (collect (getValues example_equal_widths)) = [msg_Lw_W].
Proof.
  unfold example_equal_widths. rewrite getValues_numbers. run_collect.
Qed.

Lemma example_negative_width_errors :
  errors (collect (getValues example_negative_width)) = [msg_W].
Proof.
  unfold example_negative_width. rewrite getValues_numbers. run_collect.
Qed.

Lemma example_negative_width_violations :
  Spec.violations (getValues example_negative_width) = [msg_W; msg_Lw_W].
Proof.
  unfold example_negative_width. rewrite getValues_numbers.
  unfold Spec.violations. cbn [L W T Lw Lh Tr qty edge].
  js_eval. reflexivity.
Qed.

Lemma example_equal_widths_invalid :
  fst (validate example_equal_widths) = false.
Proof. rewrite validate_fst, example_equal_widths_errors. reflexivity. Qed.

(** C3, as stated, fails when a relationship is broken together with
    the sign of one of its operands: for W = -1 and Lw = 5 (all other
    fields valid) the invariant Lw < W does not hold, yet the list holds
    the one message about the sign of W and no message about the
    relationship, so it is not the complete list of violated
    invariants. *)
Lemma validator_skips_guarded_relationship :
  let v := getValues example_negative_width in
  ~ Lw v < W v
  /\ errors (collect v) = [msg_W]
  /\ Spec.violations v = [msg_W; msg_Lw_W]
  /\ ~ In msg_Lw_W (errors (collect v))
  /\ errors (collect v) <> Spec.violations v.
Proof.
  cbv zeta.
  rewrite example_negative_width_errors, example_negative_width_violations.
  unfold example_negative_width. rewrite getValues_numbers. cbn [Lw W].
  repeat split.
  - lra.
  - intros [H|[]]. discriminate H.
  - discriminate.
Qed.

(** C3, amended. For every form the validator runs all nine of its
    statements, whatever the outcome of the others, and returns the
    messages of those whose condition holds, in source order; it returns
    for every form.  The seven sign and range conditions are those of
    the invariant set; the two relationship messages are pushed only
    when both operands are positive (Tr >= T with Tr > 0 and T > 0;
    Lw >= W with Lw > 0 and W > 0).  So every message returned names a
    violated invariant, the list is the complete list of violated
    invariants whenever T, W and Lw are positive, and the form is
    accepted exactly when the invariant set holds.  For Lw=700 and W=700
    with the other fields valid the list is the single message about lip
    width against total width, the lip-width field is the one marked,
    and both result texts are the dash. *)
Theorem validator_collects_all_checks :
  (forall v : Values,
      errors (collect v) =
        pick (c_L v) msg_L ++ pick (c_W v) msg_W ++ pick (c_T v) msg_T ++
        pick (c_Lw v) msg_Lw ++ pick (c_Lh v) msg_Lh ++ pick (c_Tr v) msg_Tr ++
        pick (c_qty v) msg_qty ++ pick (c_Tr_T v) msg_Tr_T ++
        pick (c_Lw_W v) msg_Lw_W)
  /\ (forall v : Values,
        (In msg_Tr_T (errors (collect v)) <->
           0 < Tr v /\ 0 < T v /\ T v <= Tr v)
        /\ (In msg_Lw_W (errors (collect v)) <->
              0 < Lw v /\ 0 < W v /\ W v <= Lw v))
  /\ (forall v : Values,
        incl (errors (collect v)) (Spec.violations v)
        /\ (0 < T v -> 0 < W v -> 0 < Lw v ->
            errors (collect v) = Spec.violations v))
  /\ (forall f : Form,
        (fst (validate f) = true <-> errors (collect (getValues f)) = [])
        /\ (fst (validate f) = true <-> Spec.violations (getValues f) = [])
        /\ (fst (validate f) = true <-> Invariants (getValues f))
        /\ (fst (validate f) = false ->
            calculate f = {| volumeOne := Dash; volumeTotal := Dash |}))
  /\ (errors (collect (getValues example_equal_widths)) = [msg_Lw_W]
      /\ validate example_equal_widths =
           (false,
            {| validationMsg_innerHTML :=
                 "⚠ Lip Width (Lw) must be less than Total Width (W).";
               validationMsg_visible := true;
               input_error := [el_lipWidth] |})
      /\ calculate example_equal_widths =
           {| volumeOne := Dash; volumeTotal := Dash |}).
Proof.
  split; [exact errors_collect|].
  split.
  { intros v. split.
    - now rewrite In_msg_Tr_T, c_Tr_T_iff.
    - now rewrite In_msg_Lw_W, c_Lw_W_iff. }
  split.
  { intros v. split; [apply errors_incl_violations|apply errors_eq_violations]. }
  split.
  { intros f.
    split; [now rewrite validate_true_iff, collect_nil_iff|].
    split; [now rewrite validate_true_iff, violations_nil_iff|].
    split; [apply validate_true_iff|apply calculate_invalid]. }
  split; [exact example_equal_widths_errors|].
  split; [|apply calculate_invalid, example_equal_widths_invalid].
  assert (Hi : errorInputs (collect (getValues example_equal_widths))
               = [el_lipWidth]).
  { unfold example_equal_widths. rewrite getValues_numbers.
    unfold collect, c_L, c_W, c_T, c_Lw, c_Lh, c_Tr, c_qty, c_Tr_T, c_Lw_W.
    cbn [L W T Lw Lh Tr qty edge].
    js_eval. reflexivity. }
  unfold validate. rewrite example_equal_widths_errors, Hi. reflexivity.
Qed.

(** The complete list on a form with three violations at once: a zero
    length, a negative lip height and an edge depth above T. *)
Lemma validator_collects_all_checks_witness :
  errors (collect (mkValues 0 700 100 150 (-2) 120 1 chamfer)) =
    [msg_L; msg_Lh; msg_Tr_T]
  /\ Spec.violations (mkValues 0 700 100 150 (-2) 120 1 chamfer) =
       [msg_L; msg_Lh; msg_Tr_T].
Proof.
  assert (E : errors (collect (mkValues 0 700 100 150 (-2) 120 1 chamfer)) =
              [msg_L; msg_Lh; msg_Tr_T]) by run_collect.
  split; [exact E|].
  rewrite <- E. symmetry.
  apply (proj2 (proj1 (proj2 (proj2 validator_collects_all_checks))
                  (mkValues 0 700 100 150 (-2) 120 1 chamfer))); cbn; lra.
Defined.

(** ** Quantity zero *)

Lemma getValues_default_quantity f :
  qty (getValues f) = 1%Z -> getValues f = getValues (with_quantity f "1").
Proof.
  intros H. unfold getValues in *. cbn [qty] in H.
  unfold with_quantity; cbn [length_value width_value flatThickness_value
    lipWidth_value lipHeight_value chamfer_value quantity_value
    edgeBullnose_checked getEdgeType].
  rewrite H. reflexivity.
Qed.

Lemma validate_ext f g : getValues f = getValues g -> validate f = validate g.
Proof. intros H. unfold validate. now rewrite H. Qed.

Lemma c_qty_iff f :
  c_qty (getValues f) = true <->
  exists n : Z, JS.parseInt (quantity_value f) = Some n /\ (n < 0)%Z.
Proof.
  unfold c_qty, getValues. cbn [qty].
  destruct (JS.parseInt (quantity_value f)) as [[|p|p]|]; cbn.
  - split; [discriminate|]. intros (n & E & Hn). inversion E. lia.
  - split.
    + intros H. apply Z.ltb_lt in H. lia.
    + intros (n & E & Hn). inversion E. lia.
  - split; [|reflexivity]. intros _. exists (Z.neg p). split; [reflexivity|lia].
  - split; [discriminate|]. intros (n & E & Hn). discriminate E.
Qed.

(** C9. When the quantity text reads as zero or does not read as a
    number, the quantity used is the default 1: the message
    'Quantity must be at least 1.' is not pushed, the form is accepted
    exactly when it is with the text 1, and the total equals the
    single-unit volume (the two result texts coincide).  For every form
    that message is pushed exactly when the text reads as a negative
    integer.  The texts 0, abc and the empty text read as zero or as no
    number, and the worked example with quantity text 0 is accepted with
    total 98,750,000; the text -3 reads as -3 and is rejected with that
    message alone. *)
Theorem zero_quantity_defaults_to_one :
  (forall f : Form,
      JS.parseInt (quantity_value f) = None
      \/ JS.parseInt (quantity_value f) = Some 0%Z ->
      let v := getValues f in
      qty v = 1%Z
      /\ ~ In msg_qty (errors (collect v))
      /\ validate f = validate (with_quantity f "1")
      /\ volTotal v = volOne v
      /\ volumeTotal (calculate f) = volumeOne (calculate f))
  /\ (forall f : Form,
        In msg_qty (errors (collect (getValues f))) <->
        exists n : Z, JS.parseInt (quantity_value f) = Some n /\ (n < 0)%Z)
  /\ (JS.parseInt "0" = Some 0%Z
      /\ JS.parseInt "abc" = None
      /\ JS.parseInt "" = None
      /\ JS.parseInt "-3" = Some (-3)%Z)
  /\ (fst (validate (with_quantity example_chamfer "0")) = true
      /\ volTotal (getValues (with_quantity example_chamfer "0")) = 98750000
      /\ fst (validate (with_quantity example_chamfer "abc")) = true
      /\ errors (collect (getValues (with_quantity example_chamfer "-3")))
         = [msg_qty]).
Proof.
  assert (Hgen : forall f : Form,
      JS.parseInt (quantity_value f) = None
      \/ JS.parseInt (quantity_value f) = Some 0%Z ->
      let v := getValues f in
      qty v = 1%Z
      /\ ~ In msg_qty (errors (collect v))
      /\ validate f = validate (with_quantity f "1")
      /\ volTotal v = volOne v
      /\ volumeTotal (calculate f) = volumeOne (calculate f)).
  { intros f Hp v. subst v.
    assert (Hq : qty (getValues f) = 1%Z)
      by (unfold getValues; cbn [qty]; destruct Hp as [-> | ->]; reflexivity).
    assert (Ht : volTotal (getValues f) = volOne (getValues f))
      by (unfold volTotal; rewrite Hq; lra).
    repeat split.
    - exact Hq.
    - rewrite In_msg_qty. unfold c_qty. rewrite Hq. discriminate.
    - apply validate_ext. now apply getValues_default_quantity.
    - exact Ht.
    - unfold calculate.
      destruct (negb (fst (validate f))); [reflexivity|].
      cbn [volumeTotal volumeOne]. now rewrite Ht. }
  split; [exact Hgen|].
  split; [intros f; rewrite In_msg_qty; apply c_qty_iff|].
  split; [repeat split; reflexivity|].
  assert (H0 : validate (with_quantity example_chamfer "0")
               = validate example_chamfer)
    by (apply validate_ext; reflexivity).
  assert (Ha : validate (with_quantity example_chamfer "abc")
               = validate example_chamfer)
    by (apply validate_ext; reflexivity).
  rewrite H0, Ha.
  split; [exact example_chamfer_valid|].
  split; [|split; [exact example_chamfer_valid|]].
  - change (getValues (with_quantity example_chamfer "0"))
      with (getValues example_chamfer).
    unfold volTotal. rewrite example_chamfer_volOne.
    rewrite example_chamfer_values. cbn [qty]. lra.
  - unfold example_chamfer, with_quantity;
      cbn [length_value width_value flatThickness_value lipWidth_value
             lipHeight_value chamfer_value quantity_value edgeBullnose_checked].
    rewrite getValues_numbers.
    change (JS.or_elseZ (JS.parseInt "-3") 1) with (-3)%Z.
    run_collect.
Qed.

(** The worked example with the quantity field left empty. *)
Lemma zero_quantity_defaults_to_one_witness :
  qty (getValues (with_quantity example_chamfer "")) = 1%Z.
Proof.
  apply (proj1 zero_quantity_defaults_to_one
           (with_quantity example_chamfer "")).
  left. reflexivity.
Defined.

(** ** Auto-fit radius *)

Lemma autoFit_Tr_pos Lw T : 0 < Lw -> 0 < T -> 0 < autoFit_Tr Lw T.
Proof.
  intros HLw HT. unfold autoFit_Tr.
  assert (Hp : 0 <= 2 * Lw * T) by nra.
  assert (Hs := sqrt_sqrt _ Hp).
  assert (Hs0 := sqrt_pos (2 * Lw * T)).
  set (s := sqrt (2 * Lw * T)) in *.
  nra.
Qed.

Lemma autoFit_Tr_square Lw T :
  0 < Lw -> 0 < T ->
  (Lw - autoFit_Tr Lw T) ^ 2 + (T - autoFit_Tr Lw T) ^ 2
  = autoFit_Tr Lw T * autoFit_Tr Lw T.
Proof.
  intros HLw HT. unfold autoFit_Tr.
  assert (Hp : 0 <= 2 * Lw * T) by nra.
  assert (Hs := sqrt_sqrt _ Hp).
  set (s := sqrt (2 * Lw * T)) in *.
  replace ((Lw - (Lw + T - s)) ^ 2 + (T - (Lw + T - s)) ^ 2)
    with (s * s + s * s - 2 * s * (Lw + T) + Lw * Lw + T * T) by ring.
  replace ((Lw + T - s) * (Lw + T - s))
    with (s * s + 2 * Lw * T - 2 * s * (Lw + T) + Lw * Lw + T * T) by ring.
  rewrite Hs at 2. reflexivity.
Qed.

Lemma sqrt_20000_bounds : 141.421 < sqrt 20000 < 141.422.
Proof.
  assert (Hp : 0 <= 20000) by lra.
  assert (Hs := sqrt_sqrt _ Hp).
  assert (Hs0 := sqrt_pos 20000).
  set (s := sqrt 20000) in *.
  split; nra.
Qed.

Lemma autoFit_Tr_100 : autoFit_Tr 100 100 = 200 - sqrt 20000.
Proof. unfold autoFit_Tr. replace (2 * 100 * 100) with 20000 by lra. lra. Qed.

Lemma autoFit_numbers f Lw T :
  lipWidth_value f = Some Lw -> flatThickness_value f = Some T ->
  0 < Lw -> 0 < T ->
  chamfer_value (autoFit f) = Some (IZR (JS.Math_round (autoFit_Tr Lw T))).
Proof.
  intros ELw ET HLw HT. unfold autoFit. rewrite ELw, ET.
  rewrite !JSFacts.or_else_Some_0.
  rewrite (proj2 (JSFacts.gtb_true _ _) HLw), (proj2 (JSFacts.gtb_true _ _) HT).
  reflexivity.
Qed.

Lemma Math_round_bounds x :
  x - 1 / 2 < IZR (JS.Math_round x) <= x + 1 / 2.
Proof.
  unfold JS.Math_round. assert (H := Zfloor_bound (x + 1 / 2)). lra.
Qed.

Lemma example_square_lip_autoFit :
  chamfer_value (autoFit example_square_lip) = Some 59.
Proof.
  assert (Hb := sqrt_20000_bounds).
  rewrite (autoFit_numbers example_square_lip 100 100);
    try reflexivity; try lra.
  rewrite (JSFacts.Math_round_IZR _ 59); [reflexivity|].
  rewrite autoFit_Tr_100. lra.
Qed.

Lemma autoFit_stored f Lw T :
  lipWidth_value f = Some Lw -> flatThickness_value f = Some T ->
  0 < Lw -> 0 < T ->
  Tr (getValues (autoFit f)) = IZR (JS.Math_round (autoFit_Tr Lw T)).
Proof.
  intros ELw ET HLw HT. unfold getValues; cbn [Tr].
  rewrite (autoFit_numbers f Lw T) by assumption.
  apply JSFacts.or_else_Some_0.
Qed.

(** C7, as stated, fails of the radius the solver delivers: for Lw = 100
    and T = 100 the edge depth after the click is 59, which is not
    within 0.4 of 58.578, and the circle of radius 59 does not pass
    through the inner corner: the distance from its centre to that
    corner, sqrt ((100 - 59)^2 + (100 - 59)^2), is below 58. *)
Lemma autoFit_delivers_rounded_radius :
  let r := Tr (getValues (autoFit example_square_lip)) in
  r = 59
  /\ ~ Rabs (r - 58.578) <= 0.4
  /\ sqrt ((100 - r) ^ 2 + (100 - r) ^ 2) < 58
  /\ sqrt ((100 - r) ^ 2 + (100 - r) ^ 2) <> r.
Proof.
  cbv zeta.
  assert (Er : Tr (getValues (autoFit example_square_lip)) = 59).
  { unfold getValues; cbn [Tr]. rewrite example_square_lip_autoFit.
    apply JSFacts.or_else_Some_0. }
  rewrite Er.
  replace ((100 - 59) ^ 2 + (100 - 59) ^ 2) with 3362 by lra.
  assert (Hp : 0 <= 3362) by lra.
  assert (Hs := sqrt_sqrt _ Hp).
  assert (Hs0 := sqrt_pos 3362).
  set (s := sqrt 3362) in *.
  assert (Hlt : s < 58) by nra.
  split; [reflexivity|].
  split; [rewrite Rabs_right by lra; lra|].
  split; [exact Hlt|lra].
Qed.

(** C7, amended. For all Lw > 0 and T > 0 the click handler computes
    Tr = Lw + T - sqrt (2*Lw*T); this value is positive and satisfies
    sqrt ((Lw - Tr)^2 + (T - Tr)^2) = Tr.  The handler then puts
    Math.round(Tr) in the edge-depth field, so the radius the form holds
    after the click is the whole number nearest to Tr, within one half
    of it.  For Lw = 100, T = 100 the computed Tr is 200 - sqrt 20000,
    between 58.578 and 58.579, and the field receives 59. *)
Theorem autoFit_closed_form :
  (forall Lw T : R,
      0 < Lw -> 0 < T ->
      let r := autoFit_Tr Lw T in
      r = Lw + T - sqrt (2 * Lw * T)
      /\ 0 < r
      /\ sqrt ((Lw - r) ^ 2 + (T - r) ^ 2) = r
      /\ (forall f : Form,
            lipWidth_value f = Some Lw -> flatThickness_value f = Some T ->
            chamfer_value (autoFit f) = Some (IZR (JS.Math_round r)))
      /\ (forall f : Form,
            lipWidth_value f = Some Lw -> flatThickness_value f = Some T ->
            Tr (getValues (autoFit f)) = IZR (JS.Math_round r))
      /\ r - 1 / 2 < IZR (JS.Math_round r) <= r + 1 / 2)
  /\ (autoFit_Tr 100 100 = 200 - sqrt 20000
      /\ 58.578 < autoFit_Tr 100 100 < 58.579
      /\ chamfer_value (autoFit example_square_lip) = Some 59
      /\ Tr (getValues (autoFit example_square_lip)) = 59).
Proof.
  split.
  - intros Lw T HLw HT r. subst r.
    split; [reflexivity|].
    split; [now apply autoFit_Tr_pos|].
    split.
    + rewrite autoFit_Tr_square by assumption.
      apply sqrt_square. left. now apply autoFit_Tr_pos.
    + split; [intros f ELw ET; now apply autoFit_numbers|].
      split; [intros f ELw ET; now apply autoFit_stored|].
      apply Math_round_bounds.
  - assert (Hb := sqrt_20000_bounds).
    split; [exact autoFit_Tr_100|].
    split; [rewrite autoFit_Tr_100; lra|].
    split; [exact example_square_lip_autoFit|].
    unfold getValues; cbn [Tr]. rewrite example_square_lip_autoFit.
    apply JSFacts.or_else_Some_0.
Qed.

Lemma autoFit_closed_form_witness :
  sqrt ((100 - autoFit_Tr 100 100) ^ 2 + (100 - autoFit_Tr 100 100) ^ 2)
  = autoFit_Tr 100 100.
Proof.
  apply (proj1 autoFit_closed_form 100 100); lra.
Defined.

(** ** Number of points of the outline *)

Lemma example_chamfer_sTr :
  0.5 < CrossSection.sTr (getValues example_chamfer).
Proof.
  rewrite example_chamfer_values.
  unfold CrossSection.sTr, CrossSection.scale, CrossSection.totalH,
    CrossSection.drawW, CrossSection.drawH, CrossSection.svgW,
    CrossSection.svgH, CrossSection.pad.
  cbn [Tr W T Lh].
  rewrite Rmin_left by lra. lra.
Qed.

Lemma arcPoint_first v : Isometric.arcPoint v 0 = (W v - Tr v, T v).
Proof.
  unfold Isometric.arcPoint. cbv zeta.
  replace (PI / 2 * (INR 0 / INR Isometric.segments)) with 0
    by (cbn [INR]; unfold Rdiv; ring).
  rewrite sin_0, cos_0. f_equal; ring.
Qed.

Lemma arcPoint_last v :
  Isometric.arcPoint v Isometric.segments = (W v, T v - Tr v).
Proof.
  unfold Isometric.arcPoint. cbv zeta.
  replace (PI / 2 * (INR Isometric.segments / INR Isometric.segments))
    with (PI / 2).
  - rewrite sin_PI2, cos_PI2. f_equal; ring.
  - unfold Isometric.segments. rewrite INR_IZR_INZ. cbn [Z.of_nat Pos.of_succ_nat Pos.succ].
    field.
Qed.

(** C8, as stated, fails for the chamfer: on the worked example the
    extruded outline has seven points, not six plus two.  It also fails
    for the bullnose in the cross-section view, whose path goes through
    seven points (one of them reached by an arc command), not six plus
    twelve. *)
Lemma chamfer_outline_not_eight :
  List.length (Isometric.csTop (getValues example_chamfer)) <> (6 + 2)%nat
  /\ List.length (vertices (CrossSection.path (getValues example_bullnose)))
     <> (6 + 12)%nat.
Proof.
  split.
  - rewrite example_chamfer_values. unfold Isometric.csTop. cbn [Tr edge].
    js_cases; [cbn; lia | exfalso; lra].
  - assert (H := example_chamfer_sTr). rewrite example_chamfer_values in H.
    rewrite example_bullnose_values. unfold CrossSection.path.
    change (CrossSection.sTr (mkValues 1000 700 100 150 200 50 1 bullnose))
      with (CrossSection.sTr (mkValues 1000 700 100 150 200 50 1 chamfer)).
    rewrite (proj2 (JSFacts.gtb_true _ _) H). cbn. lia.
Qed.

(** C8, amended. The extruded outline [csTop] has six points when the
    edge depth is not positive; seven for a chamfer with positive edge
    depth (the corner (W, T) replaced by (W - Tr, T) and (W, T - Tr));
    and six plus the twelve subdivisions, eighteen, for a bullnose with
    positive edge depth (the corner replaced by thirteen samples running
    from (W - Tr, T) to (W, T - Tr)).  The cross-section path goes
    through six points when the scaled edge depth is at most half a
    pixel and through seven otherwise, for both edge types: the bullnose
    corner is a single arc command there, not a subdivision.  Both
    drawing functions get past their guard on every accepted form. *)
Theorem outline_point_counts :
  Isometric.segments = 12%nat
  /\ (forall v : Values,
        Tr v <= 0 ->
        Isometric.csTop v =
          [ (0, T v); (W v, T v); (W v, - Lh v); (W v - Lw v, - Lh v);
            (W v - Lw v, 0); (0, 0) ]
        /\ List.length (Isometric.csTop v) = 6%nat)
  /\ (forall v : Values,
        0 < Tr v -> edge v = chamfer ->
        Isometric.csTop v =
          [ (0, T v); (W v - Tr v, T v); (W v, T v - Tr v); (W v, - Lh v);
            (W v - Lw v, - Lh v); (W v - Lw v, 0); (0, 0) ]
        /\ List.length (Isometric.csTop v) = 7%nat)
  /\ (forall v : Values,
        0 < Tr v -> edge v = bullnose ->
        List.length (Isometric.csTop v) = (6 + Isometric.segments)%nat
        /\ nth_error (Isometric.csTop v) 1 = Some (W v - Tr v, T v)
        /\ nth_error (Isometric.csTop v) 13 = Some (W v, T v - Tr v)
        /\ nth_error (Isometric.csTop v) 14 = Some (W v, - Lh v))
  /\ (forall v : Values,
        CrossSection.sTr v <= 0.5 ->
        List.length (vertices (CrossSection.path v)) = 6%nat)
  /\ (forall v : Values,
        0.5 < CrossSection.sTr v ->
        List.length (vertices (CrossSection.path v)) = 7%nat
        /\ (edge v = bullnose ->
            nth_error (CrossSection.path v) 2 =
              Some (cmd_A (CrossSection.sTr v) (CrossSection.sTr v) 0 false true
                      (CrossSection.ox v + CrossSection.sW v)
                      (CrossSection.oy v + CrossSection.sTr v))))
  /\ (forall f : Form,
        fst (validate f) = true ->
        Isometric.drawIsometric f = Some (Isometric.csTop (getValues f))
        /\ CrossSection.drawCrossSection f =
             Some (CrossSection.path (getValues f))).
Proof.
  split; [reflexivity|].
  split.
  { intros v H. unfold Isometric.csTop.
    rewrite (proj2 (JSFacts.gtb_false _ _) H). split; reflexivity. }
  split.
  { intros v H He. unfold Isometric.csTop.
    rewrite (proj2 (JSFacts.gtb_true _ _) H), He. split; reflexivity. }
  split.
  { intros v H He. unfold Isometric.csTop.
    rewrite (proj2 (JSFacts.gtb_true _ _) H), He.
    split; [reflexivity|].
    split; [cbn [app map seq nth_error Isometric.segments];
            now rewrite arcPoint_first|].
    split; [|reflexivity].
    generalize (arcPoint_last v). unfold Isometric.segments.
    intros E. cbn [app map seq nth_error]. now rewrite E. }
  split.
  { intros v H. unfold CrossSection.path.
    rewrite (proj2 (JSFacts.gtb_false _ _) H). reflexivity. }
  split.
  { intros v H. unfold CrossSection.path.
    rewrite (proj2 (JSFacts.gtb_true _ _) H).
    split; [destruct (edge v); reflexivity|].
    intros ->. reflexivity. }
  intros f Hok. apply validate_true_iff in Hok.
  destruct Hok as (HL & HW & HT & _).
  unfold Isometric.drawIsometric, CrossSection.drawCrossSection.
  rewrite (proj2 (JSFacts.leb_false _ _) HL), (proj2 (JSFacts.leb_false _ _) HW),
    (proj2 (JSFacts.leb_false _ _) HT).
  split; reflexivity.
Qed.

(** The counts on the dimensions of the worked example. *)
Lemma outline_point_counts_witness :
  List.length (Isometric.csTop (mkValues 1000 700 100 150 200 50 1 chamfer)) = 7%nat
  /\ List.length (Isometric.csTop (mkValues 1000 700 100 150 200 50 1 bullnose)) = 18%nat.
Proof.
  split.
  - apply (proj1 (proj2 (proj2 outline_point_counts))
             (mkValues 1000 700 100 150 200 50 1 chamfer)); cbn; [lra|reflexivity].
  - apply (proj1 (proj2 (proj2 (proj2 outline_point_counts)))
             (mkValues 1000 700 100 150 200 50 1 bullnose)); cbn; [lra|reflexivity].
Defined.

(** * Further properties of the code *)

(** ** Volume against edge depth *)

Lemma Rmax_0_mono x y : x <= y -> Rmax 0 x <= Rmax 0 y.
Proof. intros H. now apply Rle_max_compat_l. Qed.

(** X1. With a non-negative length, a deeper edge never gives a larger
    volume: for edge depths 0 <= tr <= tr' and all other values equal,
    the single-unit volume at tr' is at most the one at tr, for either
    edge type; it is never negative, and never above a non-negative base
    volume. *)
Theorem volume_antitone_in_edge_depth :
  forall (l w t lw lh tr tr' : R) (q : Z) (e : EdgeType),
    0 <= l -> 0 <= tr -> tr <= tr' ->
    let v := mkValues l w t lw lh tr q e in
    let v' := mkValues l w t lw lh tr' q e in
    0 <= volOne v'
    /\ volOne v' <= volOne v
    /\ (0 <= baseVol v -> volOne v <= baseVol v).
Proof.
  intros l w t lw lh tr tr' q e Hl Htr Hle v v'. subst v v'.
  assert (Hpi := PI_bounds).
  assert (Hsq : tr * tr <= tr' * tr') by nra.
  assert (Hsq0 : 0 <= tr * tr) by nra.
  assert (He : edgeVol (mkValues l w t lw lh tr q e)
               <= edgeVol (mkValues l w t lw lh tr' q e)).
  { unfold edgeVol; cbn [edge Tr L]. destruct e.
    - replace (0.5 * tr * tr * l) with (0.5 * l * (tr * tr)) by ring.
      replace (0.5 * tr' * tr' * l) with (0.5 * l * (tr' * tr')) by ring.
      apply Rmult_le_compat_l; [nra|assumption].
    - replace (tr * tr * (1 - PI / 4) * l) with ((1 - PI / 4) * l * (tr * tr)) by ring.
      replace (tr' * tr' * (1 - PI / 4) * l)
        with ((1 - PI / 4) * l * (tr' * tr')) by ring.
      apply Rmult_le_compat_l; [|assumption].
      apply Rmult_le_pos; lra. }
  assert (He0 : 0 <= edgeVol (mkValues l w t lw lh tr q e)).
  { unfold edgeVol; cbn [edge Tr L]. destruct e.
    - replace (0.5 * tr * tr * l) with (0.5 * l * (tr * tr)) by ring.
      apply Rmult_le_pos; nra.
    - replace (tr * tr * (1 - PI / 4) * l) with ((1 - PI / 4) * l * (tr * tr)) by ring.
      apply Rmult_le_pos; [apply Rmult_le_pos; lra|assumption]. }
  split; [apply Rmax_l|].
  split.
  - unfold volOne, JS.Math_max. apply Rmax_0_mono.
    change (baseVol (mkValues l w t lw lh tr' q e))
      with (baseVol (mkValues l w t lw lh tr q e)).
    lra.
  - intros Hb. unfold volOne, JS.Math_max.
    apply Rmax_lub; lra.
Qed.

Lemma volume_antitone_in_edge_depth_witness :
  volOne (mkValues 1000 700 100 150 200 50 1 bullnose)
  <= volOne (mkValues 1000 700 100 150 200 20 1 bullnose).
Proof.
  apply (volume_antitone_in_edge_depth 1000 700 100 150 200 20 50 1 bullnose);
    lra.
Defined.

(** ** The result texts *)

Lemma formatVolume_Dash_iff (mm3 : R) : formatVolume mm3 = Dash <-> mm3 = 0.
Proof.
  unfold formatVolume. cbv zeta.
  js_cases; split; intros H; try discriminate; try reflexivity; try lra.
Qed.

Lemma formatVolume_Exponential4 (mm3 : R) :
  mm3 <> 0 -> mm3 < 100000 -> formatVolume mm3 = Exponential4 (mm3 / 1e9).
Proof.
  intros Hn Hlt. unfold formatVolume. cbv zeta.
  js_cases; try reflexivity; exfalso; lra.
Qed.

(** X2. The dash stands for a volume of exactly zero and for nothing
    else; every other volume below 100,000 cubic millimetres (negative
    ones included) is shown in exponential notation, and every volume
    from 100,000 cubic millimetres on in fixed notation; the number
    shown is the volume divided by 10^9. *)
Theorem formatVolume_ranges :
  forall mm3 : R,
    (formatVolume mm3 = Dash <-> mm3 = 0)
    /\ (mm3 <> 0 -> mm3 < 100000 ->
        formatVolume mm3 = Exponential4 (mm3 / 1e9))
    /\ (100000 <= mm3 -> formatVolume mm3 = Fixed6 (mm3 / 1e9)).
Proof.
  intros mm3. split; [|split].
  - apply formatVolume_Dash_iff.
  - apply formatVolume_Exponential4.
  - apply formatVolume_Fixed6.
Qed.

Lemma formatVolume_ranges_witness :
  formatVolume 2500 = Exponential4 (2500 / 1e9).
Proof.
  apply (proj1 (proj2 (formatVolume_ranges 2500))); lra.
Defined.

Lemma volTotal_zero_iff f :
  fst (validate f) = true ->
  (volTotal (getValues f) = 0 <-> volOne (getValues f) = 0).
Proof.
  intros Hok. apply validate_true_iff in Hok.
  destruct Hok as (_ & _ & _ & _ & _ & _ & _ & _ & Hq).
  unfold volTotal. apply IZR_le in Hq.
  split; intros H; [|rewrite H; ring].
  apply Rmult_integral in H. destruct H; [assumption|lra].
Qed.

(** X3. For every form, the two result texts are dashes together: the
    single-unit text is the dash exactly when the total text is, and
    that happens exactly when the form is rejected or the clamped volume
    is zero.  A number shown by either text is positive. *)
Theorem results_dash_together :
  forall f : Form,
    (volumeOne (calculate f) = Dash <-> volumeTotal (calculate f) = Dash)
    /\ (volumeOne (calculate f) = Dash <->
        fst (validate f) = false \/ volOne (getValues f) = 0)
    /\ (forall m3 : R,
          volumeOne (calculate f) = Exponential4 m3
          \/ volumeOne (calculate f) = Fixed6 m3
          \/ volumeTotal (calculate f) = Exponential4 m3
          \/ volumeTotal (calculate f) = Fixed6 m3 ->
          0 < m3).
Proof.
  intros f. destruct (fst (validate f)) eqn:Hok.
  - rewrite calculate_valid by exact Hok. cbn [volumeOne volumeTotal].
    assert (H1 := formatVolume_Dash_iff (volOne (getValues f))).
    assert (Ht := formatVolume_Dash_iff (volTotal (getValues f))).
    assert (H0 : 0 <= volOne (getValues f)) by apply Rmax_l.
    assert (Hq : 1 <= IZR (qty (getValues f))).
    { apply validate_true_iff in Hok.
      destruct Hok as (_ & _ & _ & _ & _ & _ & _ & _ & Hq). now apply IZR_le. }
    split; [|split].
    + rewrite H1, Ht. symmetry. now apply volTotal_zero_iff.
    + rewrite H1. split; [now right|]. intros [H|H]; [discriminate|exact H].
    + assert (Hpos : forall x, 0 <= x -> forall m3,
                 formatVolume x = Exponential4 m3 \/ formatVolume x = Fixed6 m3 ->
                 0 < m3).
      { intros x Hx m3. unfold formatVolume. cbv zeta.
        js_cases; intros [H|H]; try discriminate; inversion H; subst;
          assert (0 <= x / 1e9) by (apply Rmult_le_pos; lra); lra. }
      intros m3 [H|[H|[H|H]]].
      * apply (Hpos _ H0). now left.
      * apply (Hpos _ H0). now right.
      * apply (Hpos (volTotal (getValues f)));
          [unfold volTotal; apply Rmult_le_pos; lra|now left].
      * apply (Hpos (volTotal (getValues f)));
          [unfold volTotal; apply Rmult_le_pos; lra|now right].
  - rewrite calculate_invalid by exact Hok. cbn [volumeOne volumeTotal].
    split; [tauto|]. split; [split; auto|].
    intros m3 [H|[H|[H|H]]]; discriminate.
Qed.

(** ** The two versions of the calculation *)

(** X4. On every form the validator accepts with the chamfer edge
    selected, the chamfer-only predecessor writes the same two result
    texts as the current script. *)
Theorem predecessor_agrees_on_chamfer :
  forall f : Form,
    edgeBullnose_checked f = false ->
    fst (validate f) = true ->
    App.calculate f = calculate f.
Proof.
  intros f He Hok. rewrite calculate_valid by exact Hok.
  unfold App.calculate.
  assert (Hv : App.volOne (App.getValues f) = volOne (getValues f)).
  { unfold App.volOne, volOne, App.baseVol, baseVol, App.chamferVol, edgeVol.
    unfold getValues, App.getValues, getEdgeType. rewrite He. reflexivity. }
  assert (Ht : App.volTotal (App.getValues f) = volTotal (getValues f)).
  { unfold App.volTotal, volTotal. rewrite Hv. reflexivity. }
  now rewrite Hv, Ht.
Qed.

Lemma predecessor_agrees_on_chamfer_witness :
  App.calculate example_chamfer = calculate example_chamfer.
Proof.
  apply predecessor_agrees_on_chamfer;
    [reflexivity | exact example_chamfer_valid].
Defined.

(** X5. The predecessor does not validate: when the quantity text reads
    as a negative integer and the single-unit volume is positive, it
    shows a negative total in exponential notation, where the current
    script shows the dash for both texts. *)
Theorem predecessor_shows_negative_total :
  forall (f : Form) (n : Z),
    JS.parseInt (quantity_value f) = Some n ->
    (n < 0)%Z ->
    0 < App.volOne (App.getValues f) ->
    volumeTotal (App.calculate f)
      = Exponential4 (App.volOne (App.getValues f) * IZR n / 1e9)
    /\ App.volOne (App.getValues f) * IZR n / 1e9 < 0
    /\ calculate f = {| volumeOne := Dash; volumeTotal := Dash |}.
Proof.
  intros f n Hp Hn Hv.
  assert (Hq : App.qty (App.getValues f) = n).
  { unfold App.getValues; cbn [App.qty]. rewrite Hp.
    destruct n; [lia | lia | reflexivity]. }
  assert (Hneg : App.volOne (App.getValues f) * IZR n < 0).
  { apply IZR_lt in Hn.
    rewrite <- (Rmult_0_r (App.volOne (App.getValues f))).
    now apply Rmult_lt_compat_l. }
  split; [|split].
  - unfold App.calculate; cbn [volumeTotal]. unfold App.volTotal. rewrite Hq.
    apply formatVolume_Exponential4; lra.
  - lra.
  - apply calculate_invalid.
    destruct (fst (validate f)) eqn:Hok; [|reflexivity].
    apply validate_true_iff in Hok.
    destruct Hok as (_ & _ & _ & _ & _ & _ & _ & _ & Hqty).
    change (qty (getValues f)) with (App.qty (App.getValues f)) in Hqty.
    lia.
Qed.

Lemma example_chamfer_App_volOne (q : string) :
  App.volOne (App.getValues (with_quantity example_chamfer q)) = 98750000.
Proof.
  unfold example_chamfer, with_quantity;
    cbn [length_value width_value flatThickness_value lipWidth_value
           lipHeight_value chamfer_value quantity_value edgeBullnose_checked].
  rewrite App_getValues_numbers.
  unfold App.volOne, App.baseVol, App.chamferVol; cbn [App.L App.W App.T App.Lw App.Lh App.C].
  replace (1000 * (700 * 100 + 150 * 200) - 0.5 * 50 * 50 * 1000)
    with 98750000 by lra.
  rewrite JSFacts.Math_max_0_nonneg; lra.
Qed.

(** Minus three stones of the worked example. *)
Lemma predecessor_shows_negative_total_witness :
  calculate (with_quantity example_chamfer "-3")
  = {| volumeOne := Dash; volumeTotal := Dash |}.
Proof.
  apply (predecessor_shows_negative_total
           (with_quantity example_chamfer "-3") (-3)).
  - reflexivity.
  - lia.
  - rewrite example_chamfer_App_volOne. lra.
Defined.

(** ** The fields the validator marks *)

Lemma collect_report_of v :
  collect v =
    report_of (c_L v) (c_W v) (c_T v) (c_Lw v) (c_Lh v) (c_Tr v) (c_qty v)
      (c_Tr_T v) (c_Lw_W v).
Proof. reflexivity. Qed.

Lemma c_Tr_excludes_c_Tr_T v : c_Tr v && c_Tr_T v = false.
Proof.
  unfold c_Tr, c_Tr_T. js_cases; try reflexivity; exfalso; lra.
Qed.

Lemma c_Lw_excludes_c_Lw_W v : c_Lw v && c_Lw_W v = false.
Proof.
  unfold c_Lw, c_Lw_W. js_cases; try reflexivity; exfalso; lra.
Qed.

Lemma report_of_counts b1 b2 b3 b4 b5 b6 b7 b8 b9 :
  b6 && b8 = false -> b4 && b9 = false ->
  let r := report_of b1 b2 b3 b4 b5 b6 b7 b8 b9 in
  List.length (errorInputs r) = List.length (errors r)
  /\ (List.length (errors r) <= 7)%nat.
Proof.
  destruct b1, b2, b3, b4, b5, b6, b7, b8, b9; cbn;
    intros H68 H49; try discriminate; split; (reflexivity || lia).
Qed.

Lemma NoDup_errorInputs_check c msg el r :
  NoDup (errorInputs r) -> NoDup (errorInputs (check c msg el r)).
Proof.
  intros H. destruct c; [|exact H]. cbn. now apply set_add_nodup.
Qed.

Lemma In_errorInputs_check x c msg el r :
  In x (errorInputs (check c msg el r)) <->
  (c = true /\ x = el) \/ In x (errorInputs r).
Proof.
  destruct c; cbn.
  - rewrite set_add_iff. intuition.
  - intuition discriminate.
Qed.

Lemma In_errorInputs_collect x v :
  In x (errorInputs (collect v)) <->
  (c_L v = true /\ x = el_length) \/ (c_W v = true /\ x = el_width)
  \/ (c_T v = true /\ x = el_flatThickness)
  \/ (c_Lw v = true /\ x = el_lipWidth) \/ (c_Lh v = true /\ x = el_lipHeight)
  \/ (c_Tr v = true /\ x = el_chamfer) \/ (c_qty v = true /\ x = el_quantity)
  \/ (c_Tr_T v = true /\ x = el_chamfer)
  \/ (c_Lw_W v = true /\ x = el_lipWidth).
Proof.
  unfold collect. rewrite !In_errorInputs_check. cbn [errorInputs empty_set In].
  tauto.
Qed.

(** X6. The fields marked after validation are those of the messages
    returned: a field is marked exactly when one of its own conditions
    fails (the edge-depth field for a negative depth or a depth not
    below a positive T; the lip-width field for a non-positive width or
    a width not below a positive W), no field is marked twice, there are
    as many marked fields as messages, and there are never more than
    seven messages. *)
Theorem marks_match_messages :
  forall f : Form,
    let v := getValues f in
    input_error (snd (validate f)) = errorInputs (collect v)
    /\ NoDup (input_error (snd (validate f)))
    /\ List.length (input_error (snd (validate f)))
       = List.length (errors (collect v))
    /\ (List.length (errors (collect v)) <= 7)%nat
    /\ (In el_length (input_error (snd (validate f))) <-> L v <= 0)
    /\ (In el_width (input_error (snd (validate f))) <-> W v <= 0)
    /\ (In el_flatThickness (input_error (snd (validate f))) <-> T v <= 0)
    /\ (In el_lipHeight (input_error (snd (validate f))) <-> Lh v <= 0)
    /\ (In el_quantity (input_error (snd (validate f))) <-> (qty v < 1)%Z)
    /\ (In el_chamfer (input_error (snd (validate f))) <->
        Tr v < 0 \/ (0 < Tr v /\ 0 < T v /\ T v <= Tr v))
    /\ (In el_lipWidth (input_error (snd (validate f))) <->
        Lw v <= 0 \/ (0 < Lw v /\ 0 < W v /\ W v <= Lw v)).
Proof.
  intros f v. subst v.
  assert (Hm : input_error (snd (validate f))
               = errorInputs (collect (getValues f))).
  { unfold validate.
    destruct (0 <? List.length (errors (collect (getValues f))))%nat;
      reflexivity. }
  rewrite Hm.
  split; [reflexivity|].
  split.
  { unfold collect. repeat apply NoDup_errorInputs_check. constructor. }
  destruct (report_of_counts
              (c_L (getValues f)) (c_W (getValues f)) (c_T (getValues f))
              (c_Lw (getValues f)) (c_Lh (getValues f)) (c_Tr (getValues f))
              (c_qty (getValues f)) (c_Tr_T (getValues f))
              (c_Lw_W (getValues f))
              (c_Tr_excludes_c_Tr_T (getValues f))
              (c_Lw_excludes_c_Lw_W (getValues f))) as [Hlen Hmax].
  rewrite <- collect_report_of in Hlen, Hmax.
  split; [exact Hlen|]. split; [exact Hmax|].
  rewrite !In_errorInputs_collect.
  rewrite <- c_Tr_T_iff, <- c_Lw_W_iff.
  unfold c_L, c_W, c_T, c_Lw, c_Lh, c_Tr, c_qty.
  rewrite <- !JSFacts.leb_true, <- JSFacts.ltb_true, <- Z.ltb_lt.
  repeat split; intros H;
    repeat match goal with
      | H : _ \/ _ |- _ => destruct H as [H|H]
      | H : _ /\ _ |- _ => destruct H as [? H]
      end;
    try discriminate; auto 12.
Qed.

(** ** Placement of the cross-section *)






(** ** The extruded outline as a region *)

Lemma csTop_sharp v :
  Tr v <= 0 ->
  Isometric.csTop v =
    [ (0, T v); (W v, T v); (W v, - Lh v); (W v - Lw v, - Lh v);
      (W v - Lw v, 0); (0, 0) ].
Proof.
  intros H. unfold Isometric.csTop.
  now rewrite (proj2 (JSFacts.gtb_false _ _) H).
Qed.

Lemma csTop_chamfer v :
  0 < Tr v -> edge v = chamfer ->
  Isometric.csTop v =
    [ (0, T v); (W v - Tr v, T v); (W v, T v - Tr v); (W v, - Lh v);
      (W v - Lw v, - Lh v); (W v - Lw v, 0); (0, 0) ].
Proof.
  intros H He. unfold Isometric.csTop.
  now rewrite (proj2 (JSFacts.gtb_true _ _) H), He.
Qed.

Lemma csTop_bullnose v :
  0 < Tr v -> edge v = bullnose ->
  Isometric.csTop v =
    (0, T v) :: map (Isometric.arcPoint v) (seq 0 13)
      ++ [ (W v, - Lh v); (W v - Lw v, - Lh v); (W v - Lw v, 0); (0, 0) ].
Proof.
  intros H He. unfold Isometric.csTop.
  now rewrite (proj2 (JSFacts.gtb_true _ _) H), He.
Qed.

Lemma outline_area_sharp v :
  Tr v <= 0 ->
  Outline.area (Isometric.csTop v) = W v * T v + Lw v * Lh v.
Proof.
  intros H. rewrite csTop_sharp by exact H.
  unfold Outline.area, Outline.shoelace, Outline.cross. cbn [fst snd]. field.
Qed.

Lemma outline_area_chamfer v :
  0 < Tr v -> edge v = chamfer ->
  Outline.area (Isometric.csTop v)
  = W v * T v + Lw v * Lh v - (Tr v) ^ 2 / 2.
Proof.
  intros H He. rewrite csTop_chamfer by assumption.
  unfold Outline.area, Outline.shoelace, Outline.cross. cbn [fst snd]. field.
Qed.

(** X9. On accepted values with an edge depth of at most W, and either
    the chamfer edge or a depth of zero, the outline that is extruded is
    a simple closed polygon listed clockwise inside the box
    [0, W] x [-Lh, T]: its points run right along the top (to W - Tr,
    which is not negative), down the cut to (W, T - Tr) above the slab
    underside, down the outer side, left under the lip, up the inner lip
    face at W - Lw (strictly between 0 and W) and left along the slab
    underside.  It encloses exactly the cross-section of the volume
    formula, W*T + Lw*Lh - Tr^2/2, and the single-unit volume is the
    length times that area (the clamp is not reached). *)
Theorem outline_area_matches_volume :
  forall v : Values,
    Invariants v ->
    Tr v <= W v ->
    edge v = chamfer \/ Tr v = 0 ->
    Forall (fun p : R * R => 0 <= fst p <= W v /\ - Lh v <= snd p <= T v)
      (Isometric.csTop v)
    /\ (0 <= W v - Tr v /\ 0 < T v - Tr v /\ - Lh v < 0
        /\ 0 < W v - Lw v < W v)
    /\ Outline.area (Isometric.csTop v)
       = W v * T v + Lw v * Lh v - (Tr v) ^ 2 / 2
    /\ 0 <= L v * Outline.area (Isometric.csTop v)
    /\ L v * Outline.area (Isometric.csTop v) = baseVol v - edgeVol v
    /\ volOne v = L v * Outline.area (Isometric.csTop v).
Proof.
  intros v (HL & HW & HT & HLw & HLh & HTr0 & HTrT & HLwW & Hq) HTrW Hcase.
  assert (HTrT' : Tr v < T v)
    by (destruct (Rle_lt_or_eq_dec _ _ HTr0) as [Hp|Hz]; [auto|lra]).
  assert (Hbox : Forall (fun p : R * R =>
                   0 <= fst p <= W v /\ - Lh v <= snd p <= T v)
                   (Isometric.csTop v)).
  { destruct (Rle_lt_or_eq_dec _ _ HTr0) as [Hp|Hz].
    - destruct Hcase as [He|Hz]; [|lra].
      rewrite csTop_chamfer by assumption.
      repeat (constructor; [cbn [fst snd]; lra|]); constructor.
    - rewrite csTop_sharp by lra.
      repeat (constructor; [cbn [fst snd]; lra|]); constructor. }
  assert (Ha : Outline.area (Isometric.csTop v)
               = W v * T v + Lw v * Lh v - (Tr v) ^ 2 / 2).
  { destruct (Rle_lt_or_eq_dec _ _ HTr0) as [Hp|Hz].
    - destruct Hcase as [He|Hz]; [|lra]. now apply outline_area_chamfer.
    - rewrite outline_area_sharp by lra. rewrite <- Hz. field. }
  assert (He0 : edgeVol v = (Tr v) ^ 2 / 2 * L v).
  { unfold edgeVol. destruct Hcase as [He|Hz].
    - rewrite He. lra.
    - rewrite Hz. destruct (edge v); lra. }
  assert (E : L v * Outline.area (Isometric.csTop v) = baseVol v - edgeVol v).
  { rewrite Ha, He0. unfold baseVol. lra. }
  assert (Hsq : Tr v * Tr v <= W v * T v).
  { apply Rmult_le_compat; lra. }
  assert (HLL : 0 < Lw v * Lh v) by (apply Rmult_lt_0_compat; lra).
  assert (HWT : 0 < W v * T v) by (apply Rmult_lt_0_compat; lra).
  assert (Hpos : 0 <= L v * Outline.area (Isometric.csTop v)).
  { rewrite Ha. apply Rmult_le_pos; [lra|]. lra. }
  split; [exact Hbox|].
  split; [repeat split; lra|].
  split; [exact Ha|]. split; [exact Hpos|]. split; [exact E|].
  unfold volOne. rewrite <- E. now apply JSFacts.Math_max_0_nonneg.
Qed.

Lemma outline_area_matches_volume_witness :
  volOne (mkValues 1000 700 100 150 200 50 1 chamfer)
  = 1000
    * Outline.area (Isometric.csTop (mkValues 1000 700 100 150 200 50 1 chamfer)).
Proof.
  apply (outline_area_matches_volume
           (mkValues 1000 700 100 150 200 50 1 chamfer)).
  - unfold Invariants; cbn. repeat split; (lra || lia || (intros; lra)).
  - cbn. lra.
  - left. reflexivity.
Defined.

(** ** The sampled quarter circle *)

Lemma arc_angle_range (i : nat) :
  (i <= Isometric.segments)%nat ->
  0 <= PI / 2 * (INR i / INR Isometric.segments) <= PI / 2.
Proof.
  intros Hi. assert (Hpi := PI_bounds).
  assert (H12 : INR Isometric.segments = 12)
    by (unfold Isometric.segments; rewrite INR_IZR_INZ; reflexivity).
  rewrite H12.
  assert (H0 : 0 <= INR i) by apply pos_INR.
  assert (H1 : INR i <= 12) by (rewrite <- H12; now apply le_INR).
  split.
  - apply Rmult_le_pos; [lra|]. apply Rmult_le_pos; lra.
  - replace (PI / 2) with (PI / 2 * 1) at 2 by ring.
    apply Rmult_le_compat_l; lra.
Qed.

(** X10. Every sample of the bullnose corner lies on the circle of
    radius Tr centred at (W - Tr, T - Tr), the circle that touches the
    top and the outer side; for a non-negative radius the thirteen
    samples drawn stay inside the square of side Tr cut from the
    corner. *)
Theorem arc_samples_on_quarter_circle :
  forall (v : Values) (i : nat),
    (fst (Isometric.arcPoint v i) - (W v - Tr v)) ^ 2
    + (snd (Isometric.arcPoint v i) - (T v - Tr v)) ^ 2 = (Tr v) ^ 2
    /\ ((i <= Isometric.segments)%nat -> 0 <= Tr v ->
        W v - Tr v <= fst (Isometric.arcPoint v i) <= W v
        /\ T v - Tr v <= snd (Isometric.arcPoint v i) <= T v).
Proof.
  intros v i. unfold Isometric.arcPoint. cbv zeta. cbn [fst snd].
  set (a := PI / 2 * (INR i / INR Isometric.segments)).
  split.
  - assert (H := sin2_cos2 a). unfold Rsqr in H.
    replace ((W v - Tr v + Tr v * sin a - (W v - Tr v)) ^ 2
             + (T v - Tr v + Tr v * cos a - (T v - Tr v)) ^ 2)
      with ((Tr v) ^ 2 * (sin a * sin a + cos a * cos a)) by ring.
    rewrite H. ring.
  - intros Hi HTr. destruct (arc_angle_range i Hi) as [Ha0 Ha1]. fold a in Ha0, Ha1.
    assert (Hpi := PI_bounds).
    assert (Hs0 : 0 <= sin a) by (apply sin_ge_0; lra).
    assert (Hc0 : 0 <= cos a) by (apply cos_ge_0; lra).
    assert (Hs1 := SIN_bound a). assert (Hc1 := COS_bound a).
    assert (0 <= Tr v * sin a) by (apply Rmult_le_pos; lra).
    assert (0 <= Tr v * cos a) by (apply Rmult_le_pos; lra).
    assert (Tr v * sin a <= Tr v * 1) by (apply Rmult_le_compat_l; lra).
    assert (Tr v * cos a <= Tr v * 1) by (apply Rmult_le_compat_l; lra).
    lra.
Qed.

Lemma arc_samples_on_quarter_circle_witness :
  W (mkValues 1000 700 100 150 200 50 1 bullnose) - 50
  <= fst (Isometric.arcPoint (mkValues 1000 700 100 150 200 50 1 bullnose) 5)
  <= W (mkValues 1000 700 100 150 200 50 1 bullnose).
Proof.
  apply (proj2 (arc_samples_on_quarter_circle
                  (mkValues 1000 700 100 150 200 50 1 bullnose) 5)).
  - unfold Isometric.segments. lia.
  - cbn. lra.
Defined.

Lemma arc_step (i : nat) :
  PI / 2 * (INR (S i) / INR Isometric.segments)
  - PI / 2 * (INR i / INR Isometric.segments) = PI / 24.
Proof.
  assert (H12 : INR Isometric.segments = 12)
    by (unfold Isometric.segments; rewrite INR_IZR_INZ; reflexivity).
  rewrite H12, S_INR. field.
Qed.

Lemma arc_cross v i :
  Outline.cross (Isometric.arcPoint v i) (Isometric.arcPoint v (S i))
  = (W v - Tr v)
      * (snd (Isometric.arcPoint v (S i)) - snd (Isometric.arcPoint v i))
    - (T v - Tr v)
      * (fst (Isometric.arcPoint v (S i)) - fst (Isometric.arcPoint v i))
    - (Tr v) ^ 2 * sin (PI / 24).
Proof.
  rewrite <- (arc_step i), sin_minus.
  unfold Outline.cross, Isometric.arcPoint. cbv zeta. cbn [fst snd].
  set (a := PI / 2 * (INR i / INR Isometric.segments)).
  set (b := PI / 2 * (INR (S i) / INR Isometric.segments)).
  ring.
Qed.

Lemma bullnose_outline_area v :
  0 < Tr v -> edge v = bullnose ->
  Outline.area (Isometric.csTop v)
  = W v * T v + Lw v * Lh v - (Tr v) ^ 2 * (1 - 6 * sin (PI / 24)).
Proof.
  intros H He. rewrite csTop_bullnose by assumption.
  cbn [map seq app Outline.area Outline.shoelace].
  rewrite !arc_cross.
  assert (E0 := arcPoint_first v).
  assert (E12 := arcPoint_last v). unfold Isometric.segments in E12.
  rewrite E0, E12. unfold Outline.cross. cbn [fst snd].
  field.
Qed.

Lemma arcPoint_in_square v i :
  (i <= Isometric.segments)%nat -> 0 <= Tr v ->
  W v - Tr v <= fst (Isometric.arcPoint v i) <= W v
  /\ T v - Tr v <= snd (Isometric.arcPoint v i) <= T v.
Proof.
  intros Hi HTr. unfold Isometric.arcPoint. cbv zeta. cbn [fst snd].
  destruct (arc_angle_range i Hi) as [Ha0 Ha1].
  set (a := PI / 2 * (INR i / INR Isometric.segments)) in *.
  assert (Hpi := PI_bounds).
  assert (Hs0 : 0 <= sin a) by (apply sin_ge_0; lra).
  assert (Hc0 : 0 <= cos a) by (apply cos_ge_0; lra).
  assert (Hs1 := SIN_bound a). assert (Hc1 := COS_bound a).
  assert (0 <= Tr v * sin a) by (apply Rmult_le_pos; lra).
  assert (0 <= Tr v * cos a) by (apply Rmult_le_pos; lra).
  assert (Tr v * sin a <= Tr v * 1) by (apply Rmult_le_compat_l; lra).
  assert (Tr v * cos a <= Tr v * 1) by (apply Rmult_le_compat_l; lra).
  lra.
Qed.

Lemma arcPoint_clockwise v i :
  (i < Isometric.segments)%nat -> 0 < Tr v ->
  fst (Isometric.arcPoint v i) < fst (Isometric.arcPoint v (S i))
  /\ snd (Isometric.arcPoint v (S i)) < snd (Isometric.arcPoint v i).
Proof.
  intros Hi HTr.
  assert (Hi0 : (i <= Isometric.segments)%nat) by lia.
  assert (Hi1 : (S i <= Isometric.segments)%nat) by lia.
  destruct (arc_angle_range i Hi0) as [Ha0 Ha1].
  destruct (arc_angle_range (S i) Hi1) as [Hb0 Hb1].
  assert (Hstep := arc_step i).
  unfold Isometric.arcPoint. cbv zeta. cbn [fst snd].
  set (a := PI / 2 * (INR i / INR Isometric.segments)) in *.
  set (b := PI / 2 * (INR (S i) / INR Isometric.segments)) in *.
  assert (Hpi := PI_bounds).
  assert (Hab : a < b) by lra.
  assert (Hs : sin a < sin b) by (apply sin_increasing_1; lra).
  assert (Hc : cos b < cos a) by (apply cos_decreasing_1; lra).
  assert (Tr v * sin a < Tr v * sin b) by (apply Rmult_lt_compat_l; lra).
  assert (Tr v * cos b < Tr v * cos a) by (apply Rmult_lt_compat_l; lra).
  lra.
Qed.

(** X11. On accepted values with the bullnose edge and a radius that is
    positive and at most W, the outline that is extruded replaces the
    quarter circle by twelve chords whose end points stay in the square
    of side Tr cut from the corner and move strictly right and down
    from one to the next, so the outline is a simple closed polygon
    listed clockwise inside the box [0, W] x [-Lh, T].  It
    encloses W*T + Lw*Lh - Tr^2 * (1 - 6 * sin (pi/24)), strictly less
    than the cross-section W*T + Lw*Lh - Tr^2 * (1 - pi/4) of the volume
    formula: the volume is computed from the formula, and the length
    times the area of the drawn outline is strictly below it. *)
Theorem bullnose_outline_under_covers :
  forall v : Values,
    Invariants v ->
    Tr v <= W v ->
    0 < Tr v -> edge v = bullnose ->
    Forall (fun p : R * R => 0 <= fst p <= W v /\ - Lh v <= snd p <= T v)
      (Isometric.csTop v)
    /\ (0 <= W v - Tr v /\ 0 < T v - Tr v /\ - Lh v < 0
        /\ 0 < W v - Lw v < W v)
    /\ (forall i : nat,
          (i < Isometric.segments)%nat ->
          fst (Isometric.arcPoint v i) < fst (Isometric.arcPoint v (S i))
          /\ snd (Isometric.arcPoint v (S i)) < snd (Isometric.arcPoint v i))
    /\ Outline.area (Isometric.csTop v)
       = W v * T v + Lw v * Lh v - (Tr v) ^ 2 * (1 - 6 * sin (PI / 24))
    /\ Outline.area (Isometric.csTop v)
       < W v * T v + Lw v * Lh v - (Tr v) ^ 2 * (1 - PI / 4)
    /\ L v * Outline.area (Isometric.csTop v) < baseVol v - edgeVol v
    /\ L v * Outline.area (Isometric.csTop v) < volOne v.
Proof.
  intros v (HL & HW & HT & HLw & HLh & HTr0 & HTrT & HLwW & Hq) HTrW H He.
  assert (HTrT' := HTrT H).
  assert (Ha := bullnose_outline_area v H He).
  assert (Hpi := PI_bounds).
  assert (Hs : sin (PI / 24) < PI / 24) by (apply sin_lt_x; lra).
  assert (Hsq : 0 < Tr v * Tr v) by (apply Rmult_lt_0_compat; assumption).
  assert (Hlt : Outline.area (Isometric.csTop v)
                < W v * T v + Lw v * Lh v - (Tr v) ^ 2 * (1 - PI / 4)).
  { rewrite Ha.
    assert (Hk : Tr v * Tr v * (6 * sin (PI / 24)) < Tr v * Tr v * (PI / 4))
      by (apply Rmult_lt_compat_l; lra).
    lra. }
  assert (Hvol : L v * Outline.area (Isometric.csTop v) < baseVol v - edgeVol v).
  { unfold baseVol, edgeVol. rewrite He.
    assert (Hm := Rmult_lt_compat_l (L v) _ _ HL Hlt). lra. }
  split.
  { rewrite csTop_bullnose by assumption.
    constructor; [cbn [fst snd]; lra|].
    apply Forall_app. split.
    - apply Forall_forall. intros p Hp. apply in_map_iff in Hp.
      destruct Hp as (i & <- & Hi). apply in_seq in Hi.
      assert (Hi' : (i <= Isometric.segments)%nat)
        by (unfold Isometric.segments; lia).
      destruct (arcPoint_in_square v i Hi' HTr0) as [Hx Hy]. lra.
    - repeat (constructor; [cbn [fst snd]; lra|]); constructor. }
  split; [repeat split; lra|].
  split; [intros i Hi; now apply arcPoint_clockwise|].
  split; [exact Ha|]. split; [exact Hlt|]. split; [exact Hvol|].
  unfold volOne, JS.Math_max.
  eapply Rlt_le_trans; [exact Hvol|apply Rmax_r].
Qed.

Lemma bullnose_outline_under_covers_witness :
  1000
  * Outline.area (Isometric.csTop (mkValues 1000 700 100 150 200 50 1 bullnose))
  < volOne (mkValues 1000 700 100 150 200 50 1 bullnose).
Proof.
  apply (bullnose_outline_under_covers
           (mkValues 1000 700 100 150 200 50 1 bullnose)).
  - unfold Invariants; cbn. repeat split; (lra || lia || (intros; lra)).
  - cbn. lra.
  - cbn. lra.
  - reflexivity.
Defined.

(** ** The isometric projection *)

Lemma cos_PI6_sqr : cos (PI / 6) * cos (PI / 6) = 3 / 4.
Proof.
  rewrite cos_PI6.
  assert (H : sqrt 3 * sqrt 3 = 3) by (apply sqrt_sqrt; lra).
  replace (sqrt 3 / 2 * (sqrt 3 / 2)) with (sqrt 3 * sqrt 3 / 4) by field.
  rewrite H. reflexivity.
Qed.

Lemma csTop_length_pos v : (1 <= List.length (Isometric.csTop v))%nat.
Proof.
  unfold Isometric.csTop.
  destruct (JS.gtb (Tr v) 0); [destruct (edge v)|]; cbn; lia.
Qed.

(** X12. In the isometric view every back point is the front point of
    the same index moved by one vector, L*(-ax, ay), so each side face
    is a parallelogram along the extrusion.  The projection [iso] moves
    a point by d*(ax, ay) for a step d along the first axis, by
    d*(0, -baseScale) along the second and by d*(-ax, ay) along the
    third, and each of these three displacements has the same length
    |d| * baseScale on the screen.  The drawing has one side face per
    outline point but the last (the edge closing the outline gets none)
    followed by the front face.  When the largest of W, L and T + Lh is
    positive, a step of that size along any axis is drawn 180 pixels
    long, and the edges of length W, L and T + Lh no longer. *)
Theorem isometric_extrusion :
  forall v : Values,
    (forall (i : nat) (p : R * R),
        nth_error (Projection.frontPts v) i = Some p ->
        nth_error (Projection.backPts v) i
        = Some (fst p - L v * Projection.ax v, snd p + L v * Projection.ay v))
    /\ Projection.ax v * Projection.ax v + Projection.ay v * Projection.ay v
       = Projection.baseScale v * Projection.baseScale v
    /\ List.length (Projection.polygons v) = List.length (Isometric.csTop v)
    /\ (exists sides : list Polygon,
          Projection.polygons v
          = sides ++ [mkPolygon (Projection.frontPts v) Projection.cFront "1.5" None]
          /\ S (List.length sides) = List.length (Projection.frontPts v))
    /\ (0 < Projection.maxDim v ->
        Projection.maxDim v * Projection.baseScale v = 180
        /\ W v * Projection.baseScale v <= 180
        /\ L v * Projection.baseScale v <= 180
        /\ (T v + Lh v) * Projection.baseScale v <= 180)
    /\ (forall x y z d : R,
          Projection.iso v (x + d) y z
          = (fst (Projection.iso v x y z) + d * Projection.ax v,
             snd (Projection.iso v x y z) + d * Projection.ay v)
          /\ Projection.iso v x (y + d) z
             = (fst (Projection.iso v x y z),
                snd (Projection.iso v x y z) - d * Projection.baseScale v)
          /\ Projection.iso v x y (z + d)
             = (fst (Projection.iso v x y z) - d * Projection.ax v,
                snd (Projection.iso v x y z) + d * Projection.ay v))
    /\ (forall x y z d : R,
          sqrt ((fst (Projection.iso v (x + d) y z) - fst (Projection.iso v x y z)) ^ 2
                + (snd (Projection.iso v (x + d) y z) - snd (Projection.iso v x y z)) ^ 2)
          = Rabs (d * Projection.baseScale v)
          /\ sqrt ((fst (Projection.iso v x (y + d) z) - fst (Projection.iso v x y z)) ^ 2
                   + (snd (Projection.iso v x (y + d) z) - snd (Projection.iso v x y z)) ^ 2)
             = Rabs (d * Projection.baseScale v)
          /\ sqrt ((fst (Projection.iso v x y (z + d)) - fst (Projection.iso v x y z)) ^ 2
                   + (snd (Projection.iso v x y (z + d)) - snd (Projection.iso v x y z)) ^ 2)
             = Rabs (d * Projection.baseScale v))
    /\ (0 < Projection.maxDim v ->
        forall x y z : R,
          sqrt ((fst (Projection.iso v (x + Projection.maxDim v) y z)
                 - fst (Projection.iso v x y z)) ^ 2
                + (snd (Projection.iso v (x + Projection.maxDim v) y z)
                   - snd (Projection.iso v x y z)) ^ 2) = 180
          /\ sqrt ((fst (Projection.iso v x (y + Projection.maxDim v) z)
                    - fst (Projection.iso v x y z)) ^ 2
                   + (snd (Projection.iso v x (y + Projection.maxDim v) z)
                      - snd (Projection.iso v x y z)) ^ 2) = 180
          /\ sqrt ((fst (Projection.iso v x y (z + Projection.maxDim v))
                    - fst (Projection.iso v x y z)) ^ 2
                   + (snd (Projection.iso v x y (z + Projection.maxDim v))
                      - snd (Projection.iso v x y z)) ^ 2) = 180).
Proof.
  intros v.
  assert (Hn := csTop_length_pos v).
  assert (Haxay : Projection.ax v * Projection.ax v
                  + Projection.ay v * Projection.ay v
                  = Projection.baseScale v * Projection.baseScale v).
  { unfold Projection.ax, Projection.ay. rewrite sin_PI6.
    replace (cos (PI / 6) * Projection.baseScale v
             * (cos (PI / 6) * Projection.baseScale v))
      with (cos (PI / 6) * cos (PI / 6)
            * (Projection.baseScale v * Projection.baseScale v)) by ring.
    rewrite cos_PI6_sqr. field. }
  assert (Hstep : forall x y z d : R,
             sqrt ((fst (Projection.iso v (x + d) y z) - fst (Projection.iso v x y z)) ^ 2
                   + (snd (Projection.iso v (x + d) y z) - snd (Projection.iso v x y z)) ^ 2)
             = Rabs (d * Projection.baseScale v)
             /\ sqrt ((fst (Projection.iso v x (y + d) z) - fst (Projection.iso v x y z)) ^ 2
                      + (snd (Projection.iso v x (y + d) z) - snd (Projection.iso v x y z)) ^ 2)
                = Rabs (d * Projection.baseScale v)
             /\ sqrt ((fst (Projection.iso v x y (z + d)) - fst (Projection.iso v x y z)) ^ 2
                      + (snd (Projection.iso v x y (z + d)) - snd (Projection.iso v x y z)) ^ 2)
                = Rabs (d * Projection.baseScale v)).
  { intros x y z d. unfold Projection.iso. cbn [fst snd].
    set (bs := Projection.baseScale v) in *.
    set (a := Projection.ax v) in *. set (b := Projection.ay v) in *.
    rewrite <- !sqrt_Rsqr_abs. unfold Rsqr.
    split; [|split]; f_equal.
    - replace (d * bs * (d * bs)) with (d * d * (bs * bs)) by ring.
      rewrite <- Haxay. ring.
    - ring.
    - replace (d * bs * (d * bs)) with (d * d * (bs * bs)) by ring.
      rewrite <- Haxay. ring. }
  split; [|split; [|split; [|split; [|split; [|split; [|split]]]]]].
  - intros i p. unfold Projection.frontPts, Projection.backPts.
    rewrite !nth_error_map.
    destruct (nth_error (Isometric.csTop v) i) as [[x y]|]; cbn;
      [|discriminate].
    intros E. inversion E; subst p. unfold Projection.iso. cbn [fst snd].
    f_equal. apply injective_projections; cbn [fst snd]; ring.
  - unfold Projection.ax, Projection.ay. rewrite sin_PI6.
    replace (cos (PI / 6) * Projection.baseScale v
             * (cos (PI / 6) * Projection.baseScale v))
      with (cos (PI / 6) * cos (PI / 6)
            * (Projection.baseScale v * Projection.baseScale v)) by ring.
    rewrite cos_PI6_sqr. field.
  - unfold Projection.polygons. cbv zeta.
    rewrite length_app, length_map, length_seq. cbn [List.length]. lia.
  - eexists. split; [reflexivity|].
    unfold Projection.frontPts. rewrite !length_map, length_seq. lia.
  - intros Hm. unfold Projection.baseScale.
    assert (E : Projection.maxDim v * (180 / Projection.maxDim v) = 180)
      by (field; lra).
    assert (Hs : 0 < 180 / Projection.maxDim v)
      by (apply Rdiv_lt_0_compat; lra).
    assert (HW : W v <= Projection.maxDim v).
    { unfold Projection.maxDim.
      eapply Rle_trans; [apply Rmax_l|apply Rmax_l]. }
    assert (HL : L v <= Projection.maxDim v).
    { unfold Projection.maxDim.
      eapply Rle_trans; [apply Rmax_r|apply Rmax_l]. }
    assert (HH : T v + Lh v <= Projection.maxDim v).
    { unfold Projection.maxDim, Projection.totalH. apply Rmax_r. }
    split; [exact E|].
    assert (Hx : forall x : R,
               x <= Projection.maxDim v ->
               x * (180 / Projection.maxDim v) <= 180).
    { intros x Hx.
      apply Rle_trans with (Projection.maxDim v * (180 / Projection.maxDim v));
        [apply Rmult_le_compat_r; lra|lra]. }
    repeat split; now apply Hx.
  - intros x y z d. unfold Projection.iso. cbn [fst snd].
    repeat split; apply injective_projections; cbn [fst snd]; ring.
  - exact Hstep.
  - intros Hm x y z.
    assert (E : Projection.maxDim v * Projection.baseScale v = 180)
      by (unfold Projection.baseScale; field; lra).
    destruct (Hstep x y z (Projection.maxDim v)) as (H1 & H2 & H3).
    rewrite E, Rabs_right in H1, H2, H3 by lra.
    repeat split; assumption.
Qed.

Lemma isometric_extrusion_witness :
  L (mkValues 1000 700 100 150 200 50 1 chamfer)
  * Projection.baseScale (mkValues 1000 700 100 150 200 50 1 chamfer) <= 180.
Proof.
  apply (isometric_extrusion (mkValues 1000 700 100 150 200 50 1 chamfer)).
  unfold Projection.maxDim, Projection.totalH. cbn [W L T Lh].
  eapply Rlt_le_trans; [|apply Rmax_l].
  eapply Rlt_le_trans; [|apply Rmax_l]. lra.
Defined.

(** ** Shading of the side faces *)















(** ** The auto-fit radius against the validator *)

Lemma autoFit_Tr_facts Lw T :
  0 < Lw -> 0 < T ->
  exists s : R,
    0 < s /\ s * s = 2 * Lw * T /\ autoFit_Tr Lw T = Lw + T - s.
Proof.
  intros HLw HT.
  assert (Hp : 0 < 2 * Lw * T)
    by (apply Rmult_lt_0_compat; [lra|assumption]).
  exists (sqrt (2 * Lw * T)). split; [now apply sqrt_lt_R0|].
  split; [apply sqrt_sqrt; lra|reflexivity].
Qed.

(** X15. For positive Lw and T the auto-fit radius is symmetric in its
    two arguments, is below T exactly when Lw < 2*T and below Lw exactly
    when T < 2*Lw.  So for a lip at least twice as wide as the slab is
    thick the computed radius is not below T, the bound the validator
    puts on the edge depth. *)
Theorem autoFit_radius_against_thickness :
  forall Lw T : R,
    0 < Lw -> 0 < T ->
    autoFit_Tr Lw T = autoFit_Tr T Lw
    /\ (autoFit_Tr Lw T < T <-> Lw < 2 * T)
    /\ (autoFit_Tr Lw T < Lw <-> T < 2 * Lw)
    /\ autoFit_Tr Lw T < Lw + T.
Proof.
  intros Lw T HLw HT.
  destruct (autoFit_Tr_facts Lw T HLw HT) as (s & Hs0 & Hss & E).
  split.
  { unfold autoFit_Tr. replace (2 * T * Lw) with (2 * Lw * T) by ring. ring. }
  rewrite E.
  split; [|split].
  - split; intros H.
    + assert (Hl : Lw < s) by lra.
      assert (Hm : Lw * Lw < s * s) by nra.
      rewrite Hss in Hm.
      apply (Rmult_lt_reg_l Lw); [assumption|]. lra.
    + assert (Hm : Lw * Lw < s * s) by (rewrite Hss; nra).
      assert (Hl : Lw < s) by nra. lra.
  - split; intros H.
    + assert (Hl : T < s) by lra.
      assert (Hm : T * T < s * s) by nra.
      rewrite Hss in Hm.
      apply (Rmult_lt_reg_l T); [assumption|]. lra.
    + assert (Hm : T * T < s * s) by (rewrite Hss; nra).
      assert (Hl : T < s) by nra. lra.
  - lra.
Qed.

Lemma autoFit_radius_against_thickness_witness :
  autoFit_Tr 150 100 < 100.
Proof.
  apply (proj1 (proj2 (autoFit_radius_against_thickness 150 100
                         ltac:(lra) ltac:(lra)))).
  lra.
Defined.

Lemma autoFit_fields f :
  length_value (autoFit f) = length_value f
  /\ width_value (autoFit f) = width_value f
  /\ flatThickness_value (autoFit f) = flatThickness_value f
  /\ lipWidth_value (autoFit f) = lipWidth_value f
  /\ lipHeight_value (autoFit f) = lipHeight_value f
  /\ quantity_value (autoFit f) = quantity_value f
  /\ edgeBullnose_checked (autoFit f) = edgeBullnose_checked f.
Proof.
  unfold autoFit.
  destruct (JS.gtb (JS.or_else (lipWidth_value f) 0) 0
            && JS.gtb (JS.or_else (flatThickness_value f) 0) 0);
    repeat split; reflexivity.
Qed.

(** X16. The auto-fit click changes no field but the edge depth, does
    nothing at all unless the lip width and the thickness both read as
    positive numbers, and a second click changes nothing more.  When
    they are positive the depth stored is a whole number within one half
    of the computed radius; and whenever the computed radius is at least
    T + 1/2 the form the click leaves is rejected by the validator with
    the message that the edge depth must be less than T. *)
Theorem autoFit_click :
  forall f : Form,
    let lw := JS.or_else (lipWidth_value f) 0 in
    let t := JS.or_else (flatThickness_value f) 0 in
    (length_value (autoFit f) = length_value f
     /\ width_value (autoFit f) = width_value f
     /\ flatThickness_value (autoFit f) = flatThickness_value f
     /\ lipWidth_value (autoFit f) = lipWidth_value f
     /\ lipHeight_value (autoFit f) = lipHeight_value f
     /\ quantity_value (autoFit f) = quantity_value f
     /\ edgeBullnose_checked (autoFit f) = edgeBullnose_checked f)
    /\ autoFit (autoFit f) = autoFit f
    /\ (lw <= 0 \/ t <= 0 -> autoFit f = f)
    /\ (0 < lw -> 0 < t ->
        exists n : Z,
          chamfer_value (autoFit f) = Some (IZR n)
          /\ Tr (getValues (autoFit f)) = IZR n
          /\ autoFit_Tr lw t - 1 / 2 < IZR n <= autoFit_Tr lw t + 1 / 2)
    /\ (0 < lw -> 0 < t -> t + 1 / 2 <= autoFit_Tr lw t ->
        fst (validate (autoFit f)) = false
        /\ In msg_Tr_T (errors (collect (getValues (autoFit f))))).
Proof.
  intros f lw t. subst lw t.
  set (lw := JS.or_else (lipWidth_value f) 0).
  set (t := JS.or_else (flatThickness_value f) 0).
  assert (Hstore : 0 < lw -> 0 < t ->
            chamfer_value (autoFit f)
            = Some (IZR (JS.Math_round (autoFit_Tr lw t)))).
  { intros HLw HT. unfold autoFit. fold lw t.
    rewrite (proj2 (JSFacts.gtb_true _ _) HLw),
      (proj2 (JSFacts.gtb_true _ _) HT). reflexivity. }
  split; [apply autoFit_fields|].
  split.
  { unfold autoFit at 1.
    destruct (autoFit_fields f) as (E1 & E2 & E3 & E4 & E5 & E6 & E7).
    rewrite E1, E2, E3, E4, E5, E6, E7. fold lw t.
    unfold autoFit. fold lw t.
    destruct (JS.gtb lw 0 && JS.gtb t 0) eqn:G; [reflexivity|].
    destruct f; reflexivity. }
  split.
  { intros H. unfold autoFit. fold lw t.
    destruct H as [H|H].
    - now rewrite (proj2 (JSFacts.gtb_false _ _) H).
    - rewrite (proj2 (JSFacts.gtb_false _ _) H). now rewrite andb_false_r. }
  split.
  { intros HLw HT. exists (JS.Math_round (autoFit_Tr lw t)).
    split; [now apply Hstore|].
    split; [|apply Math_round_bounds].
    unfold getValues; cbn [Tr]. rewrite Hstore by assumption.
    apply JSFacts.or_else_Some_0. }
  intros HLw HT Hbig.
  assert (HTr : Tr (getValues (autoFit f))
                = IZR (JS.Math_round (autoFit_Tr lw t))).
  { unfold getValues; cbn [Tr]. rewrite Hstore by assumption.
    apply JSFacts.or_else_Some_0. }
  assert (HT' : T (getValues (autoFit f)) = t).
  { unfold getValues; cbn [T].
    now rewrite (proj1 (proj2 (proj2 (autoFit_fields f)))). }
  assert (Hr := Math_round_bounds (autoFit_Tr lw t)).
  assert (Hc : c_Tr_T (getValues (autoFit f)) = true).
  { apply c_Tr_T_iff. rewrite HTr, HT'. lra. }
  split; [|now apply In_msg_Tr_T].
  destruct (fst (validate (autoFit f))) eqn:Hok; [|reflexivity].
  apply validate_true_iff in Hok.
  destruct Hok as (_ & _ & _ & _ & _ & _ & HTrT & _).
  rewrite HTr, HT' in HTrT. lra.
Qed.


Lemma sqrt_60000_bounds : 244 < sqrt 60000 < 245.
Proof.
  assert (Hp : 0 <= 60000) by lra.
  assert (Hs := sqrt_sqrt _ Hp).
  assert (Hs0 := sqrt_pos 60000).
  set (s := sqrt 60000) in *.
  split; nra.
Qed.

(** With a lip of 300 under a slab of 100 the click leaves a depth the
    validator rejects. *)
Lemma autoFit_click_witness :
  fst (validate (autoFit example_wide_lip)) = false.
Proof.
  apply (autoFit_click example_wide_lip).
  - cbn [example_wide_lip lipWidth_value]. rewrite JSFacts.or_else_Some_0. lra.
  - cbn [example_wide_lip flatThickness_value].
    rewrite JSFacts.or_else_Some_0. lra.
  - cbn [example_wide_lip lipWidth_value flatThickness_value].
    rewrite !JSFacts.or_else_Some_0. unfold autoFit_Tr.
    replace (2 * 300 * 100) with 60000 by lra.
    generalize sqrt_60000_bounds. lra.
Defined.

(** ** Dimension lines *)

Lemma isHoriz_same y : JS.ltb (Rabs (y - y)) 1 = true.
Proof.
  replace (y - y) with 0 by ring. rewrite Rabs_R0.
  apply JSFacts.ltb_true. lra.
Qed.

Lemma isHoriz_drop y d : JS.ltb (Rabs (y - (y + d))) 1 = JS.ltb (Rabs d) 1.
Proof.
  replace (y - (y + d)) with (- d) by ring. now rewrite Rabs_Ropp.
Qed.

(** X17. The width and lip-width dimension lines are always drawn as
    horizontal ones, 35 pixels above the top edge and 35 pixels below
    the bottom edge of the outline, each as long as the edge it
    measures.  The thickness and lip-height dimension lines are drawn 35
    pixels to the left and to the right of the outline when the scaled
    thickness and lip height are at least one pixel.  A dimension is
    taken for horizontal when its end points differ by less than one
    pixel in height: a thickness scaled below one pixel has its
    dimension line moved 35 pixels up instead of to the left. *)
Theorem dimension_lines_placement :
  forall v : Values,
    let ox := CrossSection.ox v in
    let oy := CrossSection.oy v in
    let sW := CrossSection.sW v in
    let sT := CrossSection.sT v in
    let sLh := CrossSection.sLh v in
    (exists dW dT dLw dLh : DimLine,
        Dimensions.dimensions v = [dW; dT; dLw; dLh]
        /\ dim_line dW = ((ox, oy + -35), (ox + sW, oy + -35))
        /\ dim_line dLw
           = ((CrossSection.lipLeftX v, oy + sT + sLh + 35),
              (ox + sW, oy + sT + sLh + 35))
        /\ text_anchor dW = "middle"%string
        /\ text_anchor dLw = "middle"%string
        /\ (1 <= sT ->
            dim_line dT = ((ox + -35, oy), (ox + -35, oy + sT))
            /\ text_anchor dT = "end"%string)
        /\ (1 <= sLh ->
            dim_line dLh = ((ox + sW + 35, oy + sT), (ox + sW + 35, oy + sT + sLh))
            /\ text_anchor dLh = "end"%string)
        /\ (Rabs sT < 1 ->
            dim_line dT = ((ox, oy + -35), (ox, oy + sT + -35))
            /\ text_anchor dT = "middle"%string)).
Proof.
  intros v ox oy sW sT sLh.
  eexists _, _, _, _. split; [reflexivity|].
  unfold Dimensions.dimLine. cbv zeta.
  cbn [dim_line text_anchor].
  fold ox oy sW sT sLh.
  rewrite !isHoriz_same, !isHoriz_drop.
  split; [reflexivity|]. split; [reflexivity|].
  split; [reflexivity|]. split; [reflexivity|].
  split; [|split].
  - intros H.
    rewrite (proj2 (JSFacts.ltb_false (Rabs sT) 1))
      by (rewrite Rabs_right; lra).
    split; reflexivity.
  - intros H.
    rewrite (proj2 (JSFacts.ltb_false (Rabs sLh) 1))
      by (rewrite Rabs_right; lra).
    split; reflexivity.
  - intros H.
    rewrite (proj2 (JSFacts.ltb_true (Rabs sT) 1)) by exact H.
    split; reflexivity.
Qed.

Lemma example_chamfer_sT :
  1 <= CrossSection.sT (mkValues 1000 700 100 150 200 50 1 chamfer).
Proof.
  unfold CrossSection.sT, CrossSection.scale, CrossSection.totalH,
    CrossSection.drawW, CrossSection.drawH, CrossSection.svgW,
    CrossSection.svgH, CrossSection.pad.
  cbn [W T Lh].
  rewrite Rmin_left by lra. lra.
Qed.

(** The thickness dimension of the worked example is a vertical one. *)
Lemma dimension_lines_placement_witness :
  exists d : DimLine,
    nth_error
      (Dimensions.dimensions (mkValues 1000 700 100 150 200 50 1 chamfer)) 1
    = Some d
    /\ text_anchor d = "end"%string.
Proof.
  destruct (dimension_lines_placement
              (mkValues 1000 700 100 150 200 50 1 chamfer))
    as (dW & dT & dLw & dLh & E & _ & _ & _ & _ & HT & _).
  exists dT. split; [rewrite E; reflexivity|].
  apply HT. exact example_chamfer_sT.
Defined.

Lemma example_chamfer_text :
  volumeOne (calculate example_chamfer) = Fixed6 0.09875.
Proof.
  rewrite calculate_valid by apply example_chamfer_valid.
  cbn [volumeOne]. rewrite example_chamfer_volOne, formatVolume_Fixed6 by lra.
  f_equal. lra.
Qed.

(** The number shown for the worked example is positive. *)
Lemma results_dash_together_witness : 0 < 0.09875.
Proof.
  apply (proj2 (proj2 (results_dash_together example_chamfer))).
  right. left. exact example_chamfer_text.
Defined.
